(** * UCA collations of vitess: go/mysql/collations/uca.go

    A shallow embedding of the collation facade ([Collate], [WeightString],
    [WeightStringLen]) of the UCA 9.0.0 collations
    ([Collation_utf8mb4_uca_0900]) and of the legacy UCA collations
    ([Collation_uca_legacy]).

    The facade drives weight iterators of package [internal/uca]; that
    package is an interface here: a type of iterator states with the
    methods the facade calls.  Go slices are a list of bytes with a
    capacity; Go's [int] is 64 bits wide. *)

From Stdlib Require Import String.
From Stdlib Require Import ZArith List Bool Lia.
Import ListNotations.
Local Open Scope Z_scope.

(** ** Machine integers, bytes, results *)

(** A byte is an integer in [0, 256); a weight is a [uint16]. *)
Definition byte := Z.
Definition uint16 := Z.

(** Go's [int]: wrap-around to the signed 64-bit range. *)
Definition int_wrap (z : Z) : Z := (z + 2 ^ 63) mod 2 ^ 64 - 2 ^ 63.

Definition int_mul (a b : Z) : Z := int_wrap (a * b).
Definition int_add (a b : Z) : Z := int_wrap (a + b).
Definition int_sub (a b : Z) : Z := int_wrap (a - b).

(** [byte(w>>8)] and [byte(w)] of a [uint16]. *)
Definition hi_byte (w : uint16) : byte := Z.land (Z.shiftr w 8) 255.
Definition lo_byte (w : uint16) : byte := Z.land w 255.

(** A call either returns or panics with a message. *)
Inductive result (A : Type) : Type :=
| Ok (a : A)
| Panic (msg : string).
Arguments Ok {A} a.
Arguments Panic {A} msg.

(** ** Slices *)

(** A slice [[]byte]: the bytes up to [len] and the capacity of the array
    behind them.  The [nil] slice has neither. *)
Record slice : Type := mkSlice { data : list byte; cap : Z }.

Definition len (s : slice) : Z := Z.of_nat (length (data s)).

Definition nil_slice : slice := mkSlice [] 0.

(** The capacity [append] picks when it has to reallocate is the runtime's
    choice: from the old capacity and the length needed. *)
Class GoRuntime : Type := { growslice : Z -> Z -> Z }.

(** [append(s, xs...)]: in place when the capacity suffices, a reallocation
    otherwise. *)
Definition append `{GoRuntime} (s : slice) (xs : list byte) : slice :=
  let need := len s + Z.of_nat (length xs) in
  if need <=? cap s
  then mkSlice (data s ++ xs) (cap s)
  else mkSlice (data s ++ xs) (growslice (cap s) need).

(** [s = s[:len(s)+n]] after [n] bytes were written into
    [s[len(s):len(s)+16]]. *)
Definition reslice (s : slice) (written : list byte) : slice :=
  mkSlice (data s ++ written) (cap s).

(** ** Package internal/uca: what the facade uses of it

    An iterator is a state, and a method takes the state and returns the
    state after the call with its results.  [Done], which hands the
    iterator back to its pool, has no part in what the facade returns. *)

Module uca.

(** [uca.WeightIterator], the iterator of the 900 collations. [Next]
    yields a weight and whether there was one; [Level] is the level the
    iterator is at; [SkipLevel] moves to the next level and returns it. *)
Class WeightIterator (St : Type) : Type := {
  Next : St -> uint16 * bool * St;
  Level : St -> Z;
  SkipLevel : St -> Z * St
}.

(** [*uca.FastIterator900]: whether the iterator is one, and
    [NextChunk(buf)] with a buffer of 16 bytes, as the bytes it wrote and
    the iterator after it; it returns how many it wrote. *)
Class FastIterator900 (St : Type) : Type := {
  isFastIterator900 : St -> bool;
  NextChunk : St -> list byte * St
}.

(** [*uca.Collation900]: [Iterator(src)]. *)
Record Collation900 (St : Type) : Type := { Iterator : list byte -> St }.
Arguments Iterator {St} _ _.

(** The iterator of the legacy collations: its [Next], here
    [NextLegacy], and [Length], the number of codepoints it went through. *)
Class WeightIteratorLegacy (St : Type) : Type := {
  NextLegacy : St -> uint16 * bool * St;
  Length : St -> Z
}.

(** [*uca.CollationLegacy]: [Iterator(src)] and [WeightForSpace()]. *)
Record CollationLegacy (St : Type) : Type := {
  IteratorLegacy : list byte -> St;
  WeightForSpace : uint16
}.
Arguments IteratorLegacy {St} _ _.
Arguments WeightForSpace {St} _.

End uca.

(** The constants the facade reads from its packages: [PadToMax] of package
    [collations] and [uca.MaxCollationElementsPerCodepoint]. *)
Class Constants : Type := {
  PadToMax : Z;
  MaxCollationElementsPerCodepoint : Z
}.

(** ** Padding loops shared by the two collations *)

Section Padding.
Context `{GoRuntime}.

(** [for len(dst) < cap(dst) { dst = append(dst, 0x00) }]; the loop runs
    at most [cap(dst) - len(dst)] times. *)
Fixpoint padZero_loop (n : nat) (dst : slice) : slice :=
  match n with
  | O => dst
  | S n' =>
      if len dst <? cap dst
      then padZero_loop n' (append dst [0x00])
      else dst
  end.

Definition padZero (dst : slice) : slice :=
  padZero_loop (Z.to_nat (cap dst - len dst)) dst.

(** [for len(dst)+1 < cap(dst) { dst = append(dst, w1, w2) }] *)
Fixpoint padSpace_loop (n : nat) (w1 w2 : byte) (dst : slice) : slice :=
  match n with
  | O => dst
  | S n' =>
      if len dst + 1 <? cap dst
      then padSpace_loop n' w1 w2 (append dst [w1; w2])
      else dst
  end.

(** The loop and the [if len(dst) < cap(dst) { dst = append(dst, w1) }]
    after it. *)
Definition padSpace (w1 w2 : byte) (dst : slice) : slice :=
  let dst := padSpace_loop (Z.to_nat (cap dst - len dst)) w1 w2 dst in
  if len dst <? cap dst then append dst [w1] else dst.

(** [for numCodepoints > 0 { dst = append(dst, w1, w2); numCodepoints-- }] *)
Fixpoint padCount_loop (n : nat) (numCodepoints : Z) (w1 w2 : byte)
         (dst : slice) : slice :=
  match n with
  | O => dst
  | S n' =>
      if 0 <? numCodepoints
      then padCount_loop n' (numCodepoints - 1) w1 w2 (append dst [w1; w2])
      else dst
  end.

Definition padCount (numCodepoints : Z) (w1 w2 : byte) (dst : slice)
  : slice :=
  padCount_loop (Z.to_nat numCodepoints) numCodepoints w1 w2 dst.

End Padding.

(** ** The weight loop of the two [WeightString] methods *)

Section WeightLoop.
Context `{GoRuntime} {St : Type}.
Variable next : St -> uint16 * bool * St.

(** [for { w, ok := it.Next(); if !ok { break };
           dst = append(dst, byte(w>>8), byte(w)) }];
    one unit of fuel for each call of [Next]. *)
Fixpoint appendWeights (fuel : nat) (it : St) (dst : slice)
  : option (slice * St) :=
  match fuel with
  | O => None
  | S fuel' =>
      let '(w, ok, it) := next it in
      if negb ok then Some (dst, it)
      else appendWeights fuel' it (append dst [hi_byte w; lo_byte w])
  end.

End WeightLoop.

(** ** Collation_utf8mb4_uca_0900 *)

Module Collation_utf8mb4_uca_0900.
Import uca.

Record t (St : Type) : Type := {
  levelsForCompare : Z;
  uca : Collation900 St
}.
Arguments levelsForCompare {St} _.
Arguments uca {St} _.

Section Methods.
Context {St : Type} `{WeightIterator St} `{FastIterator900 St}.
Context `{GoRuntime} `{Constants}.
Variable c : t St.

(** The two loops of [Collate], from the label [nextLevel] on; one unit
    of fuel for each pair of [Next] calls.  The result comes with the
    two iterators as the call leaves them. *)
Fixpoint Collate_from (fuel : nat) (level : Z) (itleft itright : St)
         (rightIsPrefix : bool) : option (Z * St * St) :=
  match fuel with
  | O => None
  | S fuel' =>
      let '(l, lok, itleft) := Next itleft in
      let '(r, rok, itright) := Next itright in
      if negb (l =? r) || negb lok || negb rok
         || (negb (Level itleft =? level) || negb (Level itright =? level))
      then
        (* switch *)
        if Level itleft =? Level itright then
          if (l =? r) && lok && rok then
            let level := level + 1 in
            if level <? levelsForCompare c
            then Collate_from fuel' level itleft itright rightIsPrefix
            else Some (l - r, itleft, itright)
          else Some (l - r, itleft, itright)
        else if Level itleft >? level then
          Some (-1, itleft, itright)
        else if Level itright >? level then
          if rightIsPrefix then
            let '(level, itleft) := SkipLevel itleft in
            if level <? levelsForCompare c
            then Collate_from fuel' level itleft itright rightIsPrefix
            else Some (- r, itleft, itright)
          else Some (1, itleft, itright)
        else Some (l - r, itleft, itright)
      else Collate_from fuel' level itleft itright rightIsPrefix
  end.

Definition Collate (fuel : nat) (left right : list byte)
           (rightIsPrefix : bool) : option (Z * St * St) :=
  Collate_from fuel 0 (Iterator (uca c) left) (Iterator (uca c) right)
               rightIsPrefix.

(** The loop over [fast.NextChunk]; one unit of fuel for each call. *)
Fixpoint emitChunks (fuel : nat) (fast : St) (dst : slice)
  : option (slice * St) :=
  match fuel with
  | O => None
  | S fuel' =>
      if cap dst - len dst >=? 16 then
        let '(chunk, fast) := NextChunk fast in
        let n := Z.of_nat (length chunk) in
        if n <=? 0 then Some (dst, fast)
        else emitChunks fuel' fast (reslice dst chunk)
      else
        let '(chunk, fast) := NextChunk fast in
        let n := Z.of_nat (length chunk) in
        if n <=? 0 then Some (dst, fast)
        else emitChunks fuel' fast (append dst chunk)
  end.

(** The loop over [it.Next]. *)
Definition emitWeights : nat -> St -> slice -> option (slice * St) :=
  appendWeights Next.

(** What [WeightString] does from the label [performPadding] on. *)
Definition performPadding (dst : slice) (numCodepoints : Z) : slice :=
  if numCodepoints =? PadToMax then padZero dst else dst.

Definition WeightString (fuel : nat) (dst : slice) (src : list byte)
           (numCodepoints : Z) : option slice :=
  let it := Iterator (uca c) src in
  let emitted :=
    if isFastIterator900 it
    then emitChunks fuel it dst
    else emitWeights fuel it dst in
  match emitted with
  | None => None
  | Some (dst, _) => Some (performPadding dst numCodepoints)
  end.

Definition WeightStringLen (numBytes : Z) : result Z :=
  if negb (Z.rem numBytes 4 =? 0)
  then Panic "WeightStringLen called with non-MOD4 length"%string
  else
    let levels := levelsForCompare c in
    let weights :=
      int_mul (int_mul (Z.quot numBytes 4) MaxCollationElementsPerCodepoint)
              levels in
    let weights := int_add weights (int_sub levels 1) in
    Ok (int_mul weights 2).

End Methods.
End Collation_utf8mb4_uca_0900.

(** ** Collation_uca_legacy *)

Module Collation_uca_legacy.
Import uca.

Record t (St : Type) : Type := { uca : CollationLegacy St }.
Arguments uca {St} _.

Section Methods.
Context {St : Type} `{WeightIteratorLegacy St}.
Context `{GoRuntime} `{Constants}.
Variable c : t St.

(** The loop of [Collate]; one unit of fuel for each pair of [Next]
    calls. *)
Fixpoint Collate_loop (fuel : nat) (itleft itright : St)
         (isPrefix : bool) : option Z :=
  match fuel with
  | O => None
  | S fuel' =>
      let '(l, lok, itleft) := NextLegacy itleft in
      let '(r, rok, itright) := NextLegacy itright in
      if (l =? r) && lok && rok
      then Collate_loop fuel' itleft itright isPrefix
      else if negb rok && isPrefix then Some 0
      else Some (l - r)
  end.

Definition Collate (fuel : nat) (left right : list byte)
           (isPrefix : bool) : option Z :=
  Collate_loop fuel (IteratorLegacy (uca c) left)
               (IteratorLegacy (uca c) right) isPrefix.

(** The loop over [it.Next]. *)
Definition emitWeights : nat -> St -> slice -> option (slice * St) :=
  appendWeights NextLegacy.

(** [WeightString] after the weights: the padding. *)
Definition pad (it : St) (dst : slice) (numCodepoints : Z) : slice :=
  if 0 <? numCodepoints then
    let weightForSpace := WeightForSpace (uca c) in
    let w1 := hi_byte weightForSpace in
    let w2 := lo_byte weightForSpace in
    if numCodepoints =? PadToMax
    then padSpace w1 w2 dst
    else
      let numCodepoints := int_sub numCodepoints (Length it) in
      padCount numCodepoints w1 w2 dst
  else dst.

Definition WeightString (fuel : nat) (dst : slice) (src : list byte)
           (numCodepoints : Z) : option slice :=
  match emitWeights fuel (IteratorLegacy (uca c) src) dst with
  | None => None
  | Some (dst, it) => Some (pad it dst numCodepoints)
  end.

Definition WeightStringLen (numBytes : Z) : Z := int_mul numBytes 8.

End Methods.
End Collation_uca_legacy.

(** ** What an iterator yields, and what is asked of one *)

Section Streams.
Context {St : Type}.

(** The bytes [WeightString] stores for a weight sequence. *)
Definition weight_bytes (ws : list uint16) : list byte :=
  flat_map (fun w => [hi_byte w; lo_byte w]) ws.

(** The weights that repeated [Next] yields up to the first failing
    call, and the iterator after that call. *)
Fixpoint weightsOf (next : St -> uint16 * bool * St) (fuel : nat) (it : St)
  : option (list uint16 * St) :=
  match fuel with
  | O => None
  | S fuel' =>
      let '(w, ok, it) := next it in
      if negb ok then Some ([], it)
      else match weightsOf next fuel' it with
           | None => None
           | Some (ws, it) => Some (w :: ws, it)
           end
  end.

(** The bytes that repeated [NextChunk] writes up to the first call that
    writes nothing. *)
Fixpoint chunksOf (nextChunk : St -> list byte * St) (fuel : nat) (it : St)
  : option (list byte * St) :=
  match fuel with
  | O => None
  | S fuel' =>
      let '(chunk, it) := nextChunk it in
      if Z.of_nat (length chunk) <=? 0 then Some ([], it)
      else match chunksOf nextChunk fuel' it with
           | None => None
           | Some (bs, it) => Some (chunk ++ bs, it)
           end
  end.

(** [k] equal weights were read from both iterators, leading from
    [(l, r)] to [(l', r')]: [k] rounds of the comparison loop that all
    continue. *)
Inductive lockstep (next : St -> uint16 * bool * St)
  : nat -> St -> St -> St -> St -> Prop :=
| lockstep_O : forall l r, lockstep next O l r l r
| lockstep_S : forall k l r w l1 r1 l' r',
    next l = (w, true, l1) ->
    next r = (w, true, r1) ->
    lockstep next k l1 r1 l' r' ->
    lockstep next (S k) l r l' r'.

End Streams.

Import uca.

(** What the facade relies on in an iterator of the 900 collations: every
    weight it yields brings it closer to its end, and a call of [Next]
    leaves the level or moves it up by one. *)
Class WeightIteratorLaws (St : Type) `{uca.WeightIterator St} : Type := {
  remaining : St -> nat;
  Next_remaining : forall s w s',
    uca.Next s = (w, true, s') -> (remaining s' < remaining s)%nat;
  Next_Level : forall s w ok s',
    uca.Next s = (w, ok, s') ->
    uca.Level s' = uca.Level s \/ uca.Level s' = uca.Level s + 1
}.

(** Every chunk that is not empty brings a fast iterator closer to its
    end. *)
Class FastIterator900Laws (St : Type) `{uca.FastIterator900 St} : Type := {
  remainingChunks : St -> nat;
  NextChunk_remaining : forall s chunk s',
    uca.NextChunk s = (chunk, s') -> chunk <> [] ->
    (remainingChunks s' < remainingChunks s)%nat
}.

(** The same for a legacy iterator, whose [Length] is a count. *)
Class WeightIteratorLegacyLaws (St : Type) `{uca.WeightIteratorLegacy St}
  : Type := {
  remainingLegacy : St -> nat;
  NextLegacy_remaining : forall s w s',
    uca.NextLegacy s = (w, true, s') ->
    (remainingLegacy s' < remainingLegacy s)%nat;
  Length_range : forall s, 0 <= uca.Length s < 2 ^ 63
}.

(** ** The weights of a source string *)

Section SourceWeights.
Context {St : Type}.

(** The weight bytes of [src] for a 900 collation: what the iterator that
    [WeightString] obtains yields, chunk by chunk when it is a fast
    iterator and weight by weight otherwise. *)
Definition weightBytes900 `{WeightIterator St} `{FastIterator900 St}
           (c : Collation_utf8mb4_uca_0900.t St) (fuel : nat)
           (src : list byte) : option (list byte) :=
  let it := Iterator (Collation_utf8mb4_uca_0900.uca c) src in
  if isFastIterator900 it
  then option_map fst (chunksOf NextChunk fuel it)
  else option_map (fun x => weight_bytes (fst x)) (weightsOf Next fuel it).

(** The fuel that is enough for [src]. *)
Definition needed900 `{WeightIterator St} `{FastIterator900 St}
           `{!WeightIteratorLaws St} `{!FastIterator900Laws St}
           (c : Collation_utf8mb4_uca_0900.t St) (src : list byte) : nat :=
  let it := Iterator (Collation_utf8mb4_uca_0900.uca c) src in
  if isFastIterator900 it then remainingChunks it else remaining it.

(** The weights of [src] for a legacy collation, with the iterator at its
    end. *)
Definition weightsLegacy `{WeightIteratorLegacy St}
           (c : Collation_uca_legacy.t St) (fuel : nat) (src : list byte)
  : option (list uint16 * St) :=
  weightsOf NextLegacy fuel
            (IteratorLegacy (Collation_uca_legacy.uca c) src).

Definition neededLegacy `{WeightIteratorLegacy St}
           `{!WeightIteratorLegacyLaws St}
           (c : Collation_uca_legacy.t St) (src : list byte) : nat :=
  remainingLegacy (IteratorLegacy (Collation_uca_legacy.uca c) src).

End SourceWeights.

(** The first [k] bytes of the space weight repeated: [w1 w2 w1 w2 ...]. *)
Fixpoint space_fill (w1 w2 : byte) (k : nat) : list byte :=
  match k with
  | O => []
  | S O => [w1]
  | S (S k') => w1 :: w2 :: space_fill w1 w2 k'
  end.

(** [r] is [dst], then [bs], then a filling up to the capacity of [r];
    [fill k] is the filling of [k] bytes. *)
Definition filled_with (fill : nat -> list byte) (dst : slice)
           (bs : list byte) (r : slice) : Prop :=
  data r =
  data dst ++ bs
  ++ fill (Z.to_nat (cap r - (len dst + Z.of_nat (length bs)))).

(** The result of [Collate] without the iterators. *)
Definition value {St : Type} (r : option (Z * St * St)) : option Z :=
  option_map (fun x => fst (fst x)) r.

(** ** Collation_utf8mb4_0900_bin *)

Module Collation_utf8mb4_0900_bin.

Definition ID : Z := 309.

Definition Name : string := "utf8mb4_0900_bin"%string.

Definition IsBinary : bool := true.

Section Methods.
Context `{GoRuntime} `{Constants}.

(** [dst = append(dst, src...)], then the zero padding with [PadToMax]. *)
Definition WeightString (dst : slice) (src : list byte) (numCodepoints : Z)
  : slice :=
  let dst := append dst src in
  if numCodepoints =? PadToMax then padZero dst else dst.

Definition WeightStringLen (numBytes : Z) : Z := numBytes.

End Methods.
End Collation_utf8mb4_0900_bin.

(** ** The structs and their [init] *)

(** [Collation_utf8mb4_uca_0900] with all its fields.  The tables come
    from package internal/uca and are parameters here, as is
    [uca.NewCollation]; a table that can be [nil] is an [option], a [nil]
    slice is the empty list, and the [sync.Once] is the flag that tells
    whether it has run, for calls that come one after the other. *)
Module Fields900.
Section Fields.
Variables WeightTable WeightPatch Contraction Reorder St : Type.
Variable NewCollation :
  string -> option WeightTable -> list WeightPatch -> list Reorder ->
  list Contraction -> bool -> Z -> uca.Collation900 St.

Record t : Type := {
  name : string;
  id : Z;
  weights : option WeightTable;
  tailoring : list WeightPatch;
  contractions : list Contraction;
  reorder : list Reorder;
  upperCaseFirst : bool;
  levelsForCompare : Z;
  uca : option (uca.Collation900 St);
  ucainit : bool
}.

Definition init (c : t) : t :=
  if ucainit c then c
  else
    {| name := name c;
       id := id c;
       weights := None;
       tailoring := [];
       contractions := [];
       reorder := [];
       upperCaseFirst := upperCaseFirst c;
       levelsForCompare := levelsForCompare c;
       uca := Some (NewCollation (name c) (weights c) (tailoring c)
                      (reorder c) (contractions c) (upperCaseFirst c)
                      (levelsForCompare c));
       ucainit := true |}.

Definition Name (c : t) : string := name c.

Definition ID (c : t) : Z := id c.

Definition IsBinary (c : t) : bool := false.

(** What [Collate], [WeightString] and [WeightStringLen] read of the
    struct, once [c.uca] is there. *)
Definition methods (c : t) : option (Collation_utf8mb4_uca_0900.t St) :=
  match uca c with
  | Some u =>
      Some {| Collation_utf8mb4_uca_0900.levelsForCompare := levelsForCompare c;
              Collation_utf8mb4_uca_0900.uca := u |}
  | None => None
  end.

End Fields.

Arguments name {_ _ _ _ _} _.
Arguments id {_ _ _ _ _} _.
Arguments weights {_ _ _ _ _} _.
Arguments tailoring {_ _ _ _ _} _.
Arguments contractions {_ _ _ _ _} _.
Arguments reorder {_ _ _ _ _} _.
Arguments upperCaseFirst {_ _ _ _ _} _.
Arguments levelsForCompare {_ _ _ _ _} _.
Arguments uca {_ _ _ _ _} _.
Arguments ucainit {_ _ _ _ _} _.
Arguments init {_ _ _ _ _} _ _.
Arguments Name {_ _ _ _ _} _.
Arguments ID {_ _ _ _ _} _.
Arguments IsBinary {_ _ _ _ _} _.
Arguments methods {_ _ _ _ _} _.

End Fields900.

(** [Collation_uca_legacy] with all its fields, in the same way. *)
Module FieldsLegacy.
Section Fields.
Variables Charset WeightTable WeightPatch Contraction St : Type.
Variable NewCollationLegacy :
  Charset -> option WeightTable -> list WeightPatch -> list Contraction ->
  Z -> uca.CollationLegacy St.

Record t : Type := {
  name : string;
  id : Z;
  charset : Charset;
  weights : option WeightTable;
  tailoring : list WeightPatch;
  contractions : list Contraction;
  maxCodepoint : Z;
  uca : option (uca.CollationLegacy St);
  ucainit : bool
}.

Definition init (c : t) : t :=
  if ucainit c then c
  else
    {| name := name c;
       id := id c;
       charset := charset c;
       weights := None;
       tailoring := [];
       contractions := [];
       maxCodepoint := maxCodepoint c;
       uca := Some (NewCollationLegacy (charset c) (weights c) (tailoring c)
                      (contractions c) (maxCodepoint c));
       ucainit := true |}.

Definition Name (c : t) : string := name c.

Definition ID (c : t) : Z := id c.

Definition IsBinary (c : t) : bool := false.

Definition methods (c : t) : option (Collation_uca_legacy.t St) :=
  match uca c with
  | Some u => Some {| Collation_uca_legacy.uca := u |}
  | None => None
  end.

End Fields.

Arguments name {_ _ _ _ _} _.
Arguments id {_ _ _ _ _} _.
Arguments charset {_ _ _ _ _} _.
Arguments weights {_ _ _ _ _} _.
Arguments tailoring {_ _ _ _ _} _.
Arguments contractions {_ _ _ _ _} _.
Arguments maxCodepoint {_ _ _ _ _} _.
Arguments uca {_ _ _ _ _} _.
Arguments ucainit {_ _ _ _ _} _.
Arguments init {_ _ _ _ _} _ _.
Arguments Name {_ _ _ _ _} _.
Arguments ID {_ _ _ _ _} _.
Arguments IsBinary {_ _ _ _ _} _.
Arguments methods {_ _ _ _ _} _.

End FieldsLegacy.

(** ** The comparison test: normalizecmp *)

(** The closure [normalizecmp] of [testRemoteComparison]. *)
Definition normalizecmp (res : Z) : Z :=
  if res <? 0 then -1
  else if res >? 0 then 1
  else 0.

(** ** Orders on weights and slices in order *)

(** What the legacy [Collate] makes of two weight sequences: the
    difference at the first place where they differ, a sequence that has
    ended counting as the weight 0 there; with [isPrefix], 0 when the
    right one has ended. *)
Fixpoint weights_diff (isPrefix : bool) (xs ys : list uint16) : Z :=
  match xs, ys with
  | [], [] => 0
  | [], y :: _ => 0 - y
  | x :: _, [] => if isPrefix then 0 else x - 0
  | x :: xs', y :: ys' =>
      if x =? y then weights_diff isPrefix xs' ys' else x - y
  end.

(** [k] rounds of the comparison loop of the 900 [Collate] that all
    continue at [level]: equal weights from both iterators, which both
    stay at the level. *)
Inductive lockstep_at {St : Type} `{uca.WeightIterator St} (level : Z)
  : nat -> St -> St -> St -> St -> Prop :=
| lockstep_at_O : forall l r, lockstep_at level O l r l r
| lockstep_at_S : forall k l r w l1 r1 l' r',
    uca.Next l = (w, true, l1) ->
    uca.Next r = (w, true, r1) ->
    uca.Level l1 = level ->
    uca.Level r1 = level ->
    lockstep_at level k l1 r1 l' r' ->
    lockstep_at level (S k) l r l' r'.

(** A slice holds no more than its capacity. *)
Definition slice_ok (s : slice) : Prop := len s <= cap s.

(** [append] reallocates to a capacity that holds what is needed. *)
Class GoRuntimeLaws `{GoRuntime} : Prop := {
  growslice_enough : forall old need : Z, need <= growslice old need
}.

(** ** A table-driven iterator *)

Module Model.
Import uca.

(** Modelled from the spec: the iterators of package internal/uca, which
    is not among the sources.  A table gives every codepoint its
    collation elements, each a list of weights, one per level; every
    byte is decoded as one codepoint.  The 900 iterator walks the
    non-zero weights of the current level and, when these are exhausted,
    yields a zero weight as the level separator and moves to the next
    level; when the last level is exhausted it yields no weight, and the
    level still moves on, which is what lets [Collate] tell a side that
    has ended from one that has not (sections 4.2 and 4.5).
    [SkipLevel] drops what is left of the current level. *)
Definition table : Type := byte -> list (list uint16).

Definition level_weights (tbl : table) (src : list byte) (lv : nat)
  : list uint16 :=
  flat_map (fun b =>
    flat_map (fun ce =>
      match nth_error ce lv with
      | Some w => if w =? 0 then [] else [w]
      | None => []
      end) (tbl b)) src.

(** The state: the weights still to come, level by level, the current
    level, and whether the iterator is a [FastIterator900]. *)
Record iterator900 : Type := {
  levels : list (list uint16);
  level : Z;
  fast : bool
}.

Definition next900 (it : iterator900) : uint16 * bool * iterator900 :=
  match levels it with
  | (w :: ws) :: more =>
      (w, true, {| levels := ws :: more; level := level it; fast := fast it |})
  | [] :: (_ :: _) as more =>
      (0, true, {| levels := more; level := level it + 1; fast := fast it |})
  | _ =>
      (0, false,
       {| levels := []; level := level it + 1; fast := fast it |})
  end.

Definition skipLevel900 (it : iterator900) : Z * iterator900 :=
  (level it + 1,
   {| levels := tl (levels it); level := level it + 1; fast := fast it |}).

#[export] Instance iterator900_WeightIterator : WeightIterator iterator900 :=
  {| Next := next900; Level := level; SkipLevel := skipLevel900 |}.

(** [NextChunk] fills the buffer from up to eight calls of [Next]
    (section 4.4: the bytes are those of the general path). *)
Fixpoint nextChunk900 (n : nat) (it : iterator900)
  : list byte * iterator900 :=
  match n with
  | O => ([], it)
  | S n' =>
      let '(w, ok, it) := next900 it in
      if negb ok then ([], it)
      else let '(bs, it) := nextChunk900 n' it in
           (hi_byte w :: lo_byte w :: bs, it)
  end.

#[export] Instance iterator900_FastIterator900 : FastIterator900 iterator900 :=
  {| isFastIterator900 := fast; NextChunk := nextChunk900 8 |}.

Definition collation900 (tbl : table) (maxLevel : nat) (isFast : bool)
  : Collation900 iterator900 :=
  {| Iterator := fun src =>
       {| levels := map (level_weights tbl src) (seq 0 maxLevel);
          level := 0; fast := isFast |} |}.

Definition measure900 (it : iterator900) : nat :=
  (length (concat (levels it)) + length (levels it))%nat.

(** Modelled from the spec: the legacy iterator of package internal/uca
    (section 4.3): one level only, the weights of each codepoint in turn,
    no separators; [Length] counts the codepoints gone through. *)
Record iteratorLegacy : Type := {
  codepoints : list (list uint16);
  current : list uint16;
  length_ : Z
}.

Fixpoint nextCodepoint (cps : list (list uint16)) (n : Z)
  : uint16 * bool * iteratorLegacy :=
  match cps with
  | [] => (0, false, {| codepoints := []; current := []; length_ := n |})
  | [] :: more => nextCodepoint more (n + 1)
  | (w :: ws) :: more =>
      (w, true, {| codepoints := more; current := ws; length_ := n + 1 |})
  end.

Definition nextLegacy (it : iteratorLegacy)
  : uint16 * bool * iteratorLegacy :=
  match current it with
  | w :: ws =>
      (w, true,
       {| codepoints := codepoints it; current := ws;
          length_ := length_ it |})
  | [] => nextCodepoint (codepoints it) (length_ it)
  end.

(** [Length] is the count, kept within the non-negative range of [int]. *)
#[export] Instance iteratorLegacy_WeightIteratorLegacy
  : WeightIteratorLegacy iteratorLegacy :=
  {| NextLegacy := nextLegacy; Length := fun it => length_ it mod 2 ^ 63 |}.

Definition collationLegacy (tbl : byte -> list uint16) (space : uint16)
  : CollationLegacy iteratorLegacy :=
  {| IteratorLegacy := fun src =>
       {| codepoints := map tbl src; current := []; length_ := 0 |};
     WeightForSpace := space |}.

Definition measureLegacy (it : iteratorLegacy) : nat :=
  (length (current it) + length (concat (codepoints it))
   + length (codepoints it))%nat.

(** The runtime in the examples: [append] doubles the capacity, or takes
    what is needed when that is more. *)
#[export] Instance doubling : GoRuntime :=
  {| growslice := fun old need => Z.max need (2 * old) |}.

(** The constants in the examples: the largest [int32] for [PadToMax],
    eight collation elements at most for a codepoint. *)
#[export] Instance constants : Constants :=
  {| PadToMax := 2147483647; MaxCollationElementsPerCodepoint := 8 |}.

(** A table for the letters a, A and b: one collation element each, with
    a primary, a secondary and a tertiary weight. *)
Definition letters : table := fun b =>
  if b =? 97 then [[0x1C47; 0x0020; 0x0002]]
  else if b =? 65 then [[0x1C47; 0x0020; 0x0008]]
  else if b =? 98 then [[0x1C60; 0x0020; 0x0002]]
  else [].

(** An accent- and case-sensitive collation (three levels) and an
    insensitive one (one level). *)
Definition as_cs : Collation_utf8mb4_uca_0900.t iterator900 :=
  {| Collation_utf8mb4_uca_0900.levelsForCompare := 3;
     Collation_utf8mb4_uca_0900.uca := collation900 letters 3 false |}.

Definition ai_ci : Collation_utf8mb4_uca_0900.t iterator900 :=
  {| Collation_utf8mb4_uca_0900.levelsForCompare := 1;
     Collation_utf8mb4_uca_0900.uca := collation900 letters 1 true |}.

(** A legacy collation: primary weights only, the space at 0x0209. *)
Definition legacy_letters : byte -> list uint16 := fun b =>
  if b =? 32 then [0x0209]
  else if b =? 97 then [0x0E33]
  else if b =? 98 then [0x0E4A]
  else [].

Definition legacy_ci : Collation_uca_legacy.t iteratorLegacy :=
  {| Collation_uca_legacy.uca := collationLegacy legacy_letters 0x0209 |}.

End Model.

(** * Properties *)

(** ** Machine arithmetic *)

Lemma int_wrap_small (z : Z) :
  - 2 ^ 63 <= z < 2 ^ 63 -> int_wrap z = z.
Proof.
  intros Hz. unfold int_wrap.
  rewrite Z.mod_small; lia.
Qed.

Lemma int_wrap_eqm (z : Z) : (int_wrap z) mod 2 ^ 64 = z mod 2 ^ 64.
Proof.
  unfold int_wrap.
  rewrite Zminus_mod, Zmod_mod, <- Zminus_mod.
  f_equal. lia.
Qed.

Lemma int_wrap_congr (a b : Z) :
  a mod 2 ^ 64 = b mod 2 ^ 64 -> int_wrap a = int_wrap b.
Proof.
  intros E. unfold int_wrap.
  rewrite (Zplus_mod a), (Zplus_mod b), E. reflexivity.
Qed.

Lemma int_mul_wrap_l (a b : Z) : int_wrap (int_wrap a * b) = int_wrap (a * b).
Proof.
  apply int_wrap_congr.
  rewrite Zmult_mod, int_wrap_eqm, <- Zmult_mod. reflexivity.
Qed.

Lemma int_add_wrap (a b : Z) :
  int_wrap (int_wrap a + int_wrap b) = int_wrap (a + b).
Proof.
  apply int_wrap_congr.
  rewrite Zplus_mod, !int_wrap_eqm, <- Zplus_mod. reflexivity.
Qed.

Lemma hi_lo_byte (w : uint16) :
  0 <= w < 65536 -> w = 256 * hi_byte w + lo_byte w.
Proof.
  intros Hw. unfold hi_byte, lo_byte.
  change 255 with (Z.ones 8).
  rewrite !Z.land_ones, Z.shiftr_div_pow2 by lia.
  change (2 ^ 8) with 256.
  rewrite (Z.mod_small (w / 256)).
  - apply Z.div_mod. lia.
  - split; [apply Z.div_pos; lia|].
    apply Z.div_lt_upper_bound; lia.
Qed.

Lemma rem4_divide (n : Z) : Z.rem n 4 = 0 <-> (4 | n).
Proof.
  split.
  - intros E. exists (Z.quot n 4).
    pose proof (Z.quot_rem' n 4). lia.
  - intros [k ->]. apply Z.rem_mul. lia.
Qed.

(** ** WeightStringLen of the 900 collations *)

Section WeightStringLen900.
Context {St : Type} `{Constants}.
Variable c : Collation_utf8mb4_uca_0900.t St.

Let levels := Collation_utf8mb4_uca_0900.levelsForCompare c.

(** Whatever the length, the value is the one of the formula, in the
    arithmetic of [int]. *)
Lemma WeightStringLen_wrap (numBytes : Z) :
  Z.rem numBytes 4 = 0 ->
  Collation_utf8mb4_uca_0900.WeightStringLen c numBytes =
  Ok (int_wrap
        ((Z.quot numBytes 4 * MaxCollationElementsPerCodepoint * levels
          + (levels - 1)) * 2)).
Proof.
  intros E. unfold Collation_utf8mb4_uca_0900.WeightStringLen.
  rewrite E. cbn [Z.eqb negb]. f_equal.
  fold levels. unfold int_mul, int_add, int_sub.
  rewrite (int_mul_wrap_l (_ * _) levels), int_add_wrap, int_mul_wrap_l.
  reflexivity.
Qed.

(** C7: [WeightStringLen] panics for every length that is not a multiple
    of 4 and returns a value for every length that is one. *)
Theorem WeightStringLen_panics_iff_unaligned (numBytes : Z) :
  (~ (4 | numBytes) ->
   Collation_utf8mb4_uca_0900.WeightStringLen c numBytes =
   Panic "WeightStringLen called with non-MOD4 length")
  /\ ((4 | numBytes) ->
      exists v, Collation_utf8mb4_uca_0900.WeightStringLen c numBytes = Ok v).
Proof.
  split.
  - intros Hn. unfold Collation_utf8mb4_uca_0900.WeightStringLen.
    destruct (Z.rem numBytes 4 =? 0) eqn:E; [|reflexivity].
    apply Z.eqb_eq, rem4_divide in E. contradiction.
  - intros Hd. apply rem4_divide in Hd.
    rewrite (WeightStringLen_wrap _ Hd). eexists. reflexivity.
Qed.

(** C8, amended: for a multiple of 4 the bound is, per group of four
    bytes, the largest number of collation elements of a codepoint times
    the number of levels, plus one separator weight between each two
    levels, at two bytes a weight: the separators count for
    [2 * (levelsForCompare - 1)] bytes. *)
Theorem WeightStringLen_value (numBytes : Z) :
  (4 | numBytes) ->
  - 2 ^ 63 <=
    2 * (numBytes / 4 * MaxCollationElementsPerCodepoint * levels)
    + 2 * (levels - 1) < 2 ^ 63 ->
  Collation_utf8mb4_uca_0900.WeightStringLen c numBytes =
  Ok (2 * (numBytes / 4 * MaxCollationElementsPerCodepoint * levels)
      + 2 * (levels - 1)).
Proof.
  intros Hd Hr.
  assert (Hq : Z.quot numBytes 4 = numBytes / 4).
  { destruct Hd as [k ->]. rewrite Z.quot_mul, Z.div_mul; lia. }
  apply rem4_divide in Hd.
  rewrite (WeightStringLen_wrap _ Hd), Hq. f_equal.
  rewrite int_wrap_small; lia.
Qed.

End WeightStringLen900.

(** ** Slices and the padding loops *)

Section SliceFacts.
Context `{GoRuntime}.

Lemma len_mkSlice (bs : list byte) (c : Z) :
  len (mkSlice bs c) = Z.of_nat (length bs).
Proof. reflexivity. Qed.

Lemma append_data (s : slice) (xs : list byte) :
  data (append s xs) = data s ++ xs.
Proof.
  unfold append. destruct (_ <=? _); reflexivity.
Qed.

Lemma append_fits (s : slice) (xs : list byte) :
  len s + Z.of_nat (length xs) <= cap s ->
  append s xs = mkSlice (data s ++ xs) (cap s).
Proof.
  intros Hfit. unfold append.
  destruct (_ <=? _) eqn:E; [reflexivity|].
  apply Z.leb_gt in E. lia.
Qed.

Lemma len_app (bs xs : list byte) (c : Z) :
  len (mkSlice (bs ++ xs) c) = Z.of_nat (length bs) + Z.of_nat (length xs).
Proof.
  unfold len. cbn [data]. rewrite length_app. lia.
Qed.

Lemma slice_eta (d : slice) : mkSlice (data d) (cap d) = d.
Proof. destruct d; reflexivity. Qed.

(** The zero padding fills the slice up to its capacity. *)
Lemma padZero_loop_spec (n : nat) : forall d : slice,
  (Z.to_nat (cap d - len d) <= n)%nat ->
  padZero_loop n d =
  mkSlice (data d ++ repeat 0x00 (Z.to_nat (cap d - len d))) (cap d).
Proof.
  induction n as [|n IH]; intros d Hn; cbn [padZero_loop];
    assert (HL : len d = Z.of_nat (length (data d))) by reflexivity.
  - replace (Z.to_nat (cap d - len d)) with O by lia.
    cbn [repeat]. rewrite app_nil_r. symmetry. apply slice_eta.
  - destruct (len d <? cap d) eqn:E.
    + apply Z.ltb_lt in E.
      rewrite append_fits by (cbn [length]; lia).
      rewrite IH; cbn [cap data]; rewrite len_app; cbn [length].
      * replace (Z.to_nat (cap d - len d))
          with (S (Z.to_nat (cap d - (Z.of_nat (length (data d)) + 1))))
          by lia.
        cbn [repeat]. rewrite <- app_assoc. reflexivity.
      * lia.
    + apply Z.ltb_ge in E.
      replace (Z.to_nat (cap d - len d)) with O by lia.
      cbn [repeat]. rewrite app_nil_r. symmetry. apply slice_eta.
Qed.

Lemma padZero_spec (d : slice) :
  padZero d =
  mkSlice (data d ++ repeat 0x00 (Z.to_nat (cap d - len d))) (cap d).
Proof. apply padZero_loop_spec. lia. Qed.

(** The space padding, with the lone high byte at the end when the room
    is odd. *)
Lemma padSpace_loop_spec (w1 w2 : byte) (n : nat) : forall d : slice,
  (Z.to_nat (cap d - len d) <= n)%nat ->
  (let d' := padSpace_loop n w1 w2 d in
   if len d' <? cap d' then append d' [w1] else d') =
  mkSlice (data d ++ space_fill w1 w2 (Z.to_nat (cap d - len d))) (cap d).
Proof.
  induction n as [|n IH]; intros d Hn; cbn [padSpace_loop]; cbv zeta;
    assert (HL : len d = Z.of_nat (length (data d))) by reflexivity.
  - replace (Z.to_nat (cap d - len d)) with O by lia.
    destruct (len d <? cap d) eqn:E; [apply Z.ltb_lt in E; lia|].
    cbn [space_fill]. rewrite app_nil_r. symmetry. apply slice_eta.
  - destruct (len d + 1 <? cap d) eqn:E.
    + apply Z.ltb_lt in E.
      rewrite append_fits by (cbn [length]; lia).
      specialize (IH (mkSlice (data d ++ [w1; w2]) (cap d))).
      cbv zeta in IH. rewrite IH; cbn [cap data]; rewrite len_app;
        cbn [length].
      * replace (Z.to_nat (cap d - len d))
          with (S (S (Z.to_nat (cap d - (Z.of_nat (length (data d)) + 2)))))
          by lia.
        cbn [space_fill]. rewrite <- app_assoc. reflexivity.
      * lia.
    + apply Z.ltb_ge in E.
      destruct (len d <? cap d) eqn:E1.
      * apply Z.ltb_lt in E1.
        rewrite append_fits by (cbn [length]; lia).
        replace (Z.to_nat (cap d - len d)) with 1%nat by lia.
        reflexivity.
      * apply Z.ltb_ge in E1.
        replace (Z.to_nat (cap d - len d)) with O by lia.
        cbn [space_fill]. rewrite app_nil_r. symmetry. apply slice_eta.
Qed.

Lemma padSpace_spec (w1 w2 : byte) (d : slice) :
  padSpace w1 w2 d =
  mkSlice (data d ++ space_fill w1 w2 (Z.to_nat (cap d - len d))) (cap d).
Proof. apply padSpace_loop_spec. lia. Qed.

(** The counted padding appends one space weight for every unit of the
    count. *)
Lemma padCount_loop_data (w1 w2 : byte) (n : nat) :
  forall (z : Z) (d : slice),
  (Z.to_nat z <= n)%nat ->
  data (padCount_loop n z w1 w2 d) =
  data d ++ concat (repeat [w1; w2] (Z.to_nat z)).
Proof.
  induction n as [|n IH]; intros z d Hn; cbn [padCount_loop].
  - replace (Z.to_nat z) with O by lia.
    cbn [repeat concat]. now rewrite app_nil_r.
  - destruct (0 <? z) eqn:E.
    + apply Z.ltb_lt in E.
      rewrite IH by lia. rewrite append_data.
      replace (Z.to_nat z) with (S (Z.to_nat (z - 1))) by lia.
      cbn [repeat concat]. rewrite <- app_assoc. reflexivity.
    + apply Z.ltb_ge in E.
      replace (Z.to_nat z) with O by lia.
      cbn [repeat concat]. now rewrite app_nil_r.
Qed.

Lemma padCount_data (w1 w2 : byte) (z : Z) (d : slice) :
  data (padCount z w1 w2 d) =
  data d ++ concat (repeat [w1; w2] (Z.to_nat z)).
Proof. apply padCount_loop_data. lia. Qed.

Lemma space_fill_length (w1 w2 : byte) (k : nat) :
  length (space_fill w1 w2 k) = k.
Proof.
  induction k as [k IH] using (well_founded_induction Wf_nat.lt_wf).
  destruct k as [|[|k]]; cbn [space_fill length]; try reflexivity.
  rewrite IH by lia. reflexivity.
Qed.

End SliceFacts.

(** ** The weight loop and the chunk loop *)

Section StreamFacts.
Context `{GoRuntime} {St : Type}.
Variable next : St -> uint16 * bool * St.

Lemma weightsOf_mono (fuel : nat) : forall (it : St) x (fuel' : nat),
  weightsOf next fuel it = Some x -> (fuel <= fuel')%nat ->
  weightsOf next fuel' it = Some x.
Proof.
  induction fuel as [|fuel IH]; intros it x fuel' E Hle; [discriminate|].
  destruct fuel' as [|fuel']; [lia|].
  cbn [weightsOf] in *.
  destruct (next it) as [[w ok] it1].
  destruct ok; cbn [negb] in *; [|assumption].
  destruct (weightsOf next fuel it1) as [[ws it2]|] eqn:E1; [|discriminate].
  rewrite (IH _ _ fuel' E1) by lia. assumption.
Qed.

(** With a measure that every yielded weight decreases, the loop ends. *)
Lemma weightsOf_total (m : St -> nat) :
  (forall s w s', next s = (w, true, s') -> (m s' < m s)%nat) ->
  forall (fuel : nat) (it : St), (m it < fuel)%nat ->
  exists ws it', weightsOf next fuel it = Some (ws, it').
Proof.
  intros Hm. induction fuel as [|fuel IH]; intros it Hlt; [lia|].
  cbn [weightsOf].
  destruct (next it) as [[w ok] it1] eqn:E.
  destruct ok; cbn [negb].
  - apply Hm in E.
    destruct (IH it1) as (ws & it' & ->); [lia|]. eauto.
  - eauto.
Qed.

(** [appendWeights] stores the bytes of the weights behind the bytes of
    [dst], and keeps the capacity when they fit in. *)
Lemma appendWeights_spec (fuel : nat) :
  forall (it : St) (ws : list uint16) (it' : St) (dst : slice),
  weightsOf next fuel it = Some (ws, it') ->
  exists d,
    appendWeights next fuel it dst = Some (d, it')
    /\ data d = data dst ++ weight_bytes ws
    /\ (len dst + Z.of_nat (length (weight_bytes ws)) <= cap dst ->
        cap d = cap dst).
Proof.
  induction fuel as [|fuel IH]; intros it ws it' dst E; [discriminate|].
  cbn [weightsOf appendWeights] in *.
  destruct (next it) as [[w ok] it1].
  destruct ok; cbn [negb] in *.
  - destruct (weightsOf next fuel it1) as [[ws1 it2]|] eqn:E1;
      [|discriminate].
    injection E as <- <-.
    destruct (IH _ _ _ (append dst [hi_byte w; lo_byte w]) E1)
      as (d & Hd & Hdata & Hcap).
    exists d. split; [assumption|]. split.
    + rewrite Hdata, append_data, <- app_assoc. reflexivity.
    + intros Hfit. cbn [weight_bytes flat_map app length] in Hfit.
      fold (weight_bytes ws1) in Hfit.
      assert (Hfit2 : len dst + Z.of_nat (length [hi_byte w; lo_byte w])
                      <= cap dst) by (cbn [length]; lia).
      rewrite (append_fits _ _ Hfit2) in Hcap.
      cbn [cap data] in Hcap. rewrite len_app in Hcap.
      cbn [length] in Hcap. apply Hcap. unfold len in Hfit. lia.
  - injection E as <- <-. exists dst. split; [reflexivity|].
    cbn [weight_bytes flat_map]. rewrite app_nil_r. auto.
Qed.

Variable nextChunk : St -> list byte * St.

Lemma chunksOf_mono (fuel : nat) : forall (it : St) x (fuel' : nat),
  chunksOf nextChunk fuel it = Some x -> (fuel <= fuel')%nat ->
  chunksOf nextChunk fuel' it = Some x.
Proof.
  induction fuel as [|fuel IH]; intros it x fuel' E Hle; [discriminate|].
  destruct fuel' as [|fuel']; [lia|].
  cbn [chunksOf] in *.
  destruct (nextChunk it) as [chunk it1].
  destruct (Z.of_nat (length chunk) <=? 0); [assumption|].
  destruct (chunksOf nextChunk fuel it1) as [[bs it2]|] eqn:E1;
    [|discriminate].
  rewrite (IH _ _ fuel' E1) by lia. assumption.
Qed.

Lemma chunksOf_total (m : St -> nat) :
  (forall s chunk s', nextChunk s = (chunk, s') -> chunk <> [] ->
                      (m s' < m s)%nat) ->
  forall (fuel : nat) (it : St), (m it < fuel)%nat ->
  exists bs it', chunksOf nextChunk fuel it = Some (bs, it').
Proof.
  intros Hm. induction fuel as [|fuel IH]; intros it Hlt; [lia|].
  cbn [chunksOf].
  destruct (nextChunk it) as [chunk it1] eqn:E.
  destruct (Z.of_nat (length chunk) <=? 0) eqn:En; [eauto|].
  apply Z.leb_gt in En.
  assert (Hne : chunk <> []) by (intros ->; cbn in En; lia).
  specialize (Hm _ _ _ E Hne).
  destruct (IH it1) as (bs & it' & ->); [lia|]. eauto.
Qed.

End StreamFacts.

Section ChunkFacts.
Context {St : Type} `{WeightIterator St} `{FastIterator900 St}.
Context `{GoRuntime}.

(** [emitChunks] stores the chunks behind the bytes of [dst], whichever
    of its two ways each chunk takes, and keeps the capacity when they
    fit in. *)
Lemma emitChunks_spec (fuel : nat) :
  forall (it : St) (bs : list byte) (it' : St) (dst : slice),
  chunksOf NextChunk fuel it = Some (bs, it') ->
  exists d,
    Collation_utf8mb4_uca_0900.emitChunks fuel it dst = Some (d, it')
    /\ data d = data dst ++ bs
    /\ (len dst + Z.of_nat (length bs) <= cap dst -> cap d = cap dst).
Proof.
  induction fuel as [|fuel IH]; intros it bs it' dst E; [discriminate|].
  cbn [chunksOf Collation_utf8mb4_uca_0900.emitChunks] in *.
  destruct (NextChunk it) as [chunk it1].
  destruct (Z.of_nat (length chunk) <=? 0) eqn:En.
  - injection E as <- <-.
    exists dst. rewrite app_nil_r.
    destruct (_ >=? _); auto.
  - destruct (chunksOf NextChunk fuel it1) as [[bs1 it2]|] eqn:E1;
      [|discriminate].
    injection E as <- <-.
    destruct (cap dst - len dst >=? 16).
    + destruct (IH _ _ _ (reslice dst chunk) E1) as (d & Hd & Hdata & Hcap).
      exists d. split; [assumption|]. split.
      * rewrite Hdata. cbn [reslice data]. now rewrite <- app_assoc.
      * intros Hfit. rewrite length_app in Hfit.
        apply Hcap. unfold reslice, len in *. cbn [data cap] in *.
        rewrite length_app. lia.
    + destruct (IH _ _ _ (append dst chunk) E1) as (d & Hd & Hdata & Hcap).
      exists d. split; [assumption|]. split.
      * rewrite Hdata, append_data. now rewrite <- app_assoc.
      * intros Hfit. rewrite length_app in Hfit.
        assert (Hfit2 : len dst + Z.of_nat (length chunk) <= cap dst)
          by lia.
        rewrite (append_fits _ _ Hfit2) in Hcap.
        cbn [cap data] in Hcap. rewrite len_app in Hcap.
        apply Hcap. unfold len in Hfit. lia.
Qed.

End ChunkFacts.

(** ** WeightString of the 900 collations *)

Section WeightString900.
Context {St : Type} `{WeightIterator St} `{FastIterator900 St}.
Context `{!WeightIteratorLaws St} `{!FastIterator900Laws St}.
Context `{GoRuntime} `{Constants}.
Variable c : Collation_utf8mb4_uca_0900.t St.

Lemma weightBytes900_total (fuel : nat) (src : list byte) :
  (needed900 c src < fuel)%nat ->
  exists bs, weightBytes900 c fuel src = Some bs.
Proof.
  unfold needed900, weightBytes900. cbv zeta.
  destruct (isFastIterator900 _); intros Hlt.
  - destruct (chunksOf_total NextChunk remainingChunks
                NextChunk_remaining fuel _ Hlt) as (bs & it' & ->).
    eexists. reflexivity.
  - destruct (weightsOf_total Next remaining Next_remaining fuel _ Hlt)
      as (ws & it' & ->).
    eexists. reflexivity.
Qed.

(** The weight bytes do not depend on the fuel that was enough. *)
Lemma weightBytes900_fuel (f1 f2 : nat) (src : list byte) bs1 bs2 :
  weightBytes900 c f1 src = Some bs1 ->
  weightBytes900 c f2 src = Some bs2 ->
  bs1 = bs2.
Proof.
  unfold weightBytes900. cbv zeta.
  destruct (isFastIterator900 _).
  - destruct (chunksOf NextChunk f1 _) as [x1|] eqn:E1; [|discriminate].
    destruct (chunksOf NextChunk f2 _) as [x2|] eqn:E2; [|discriminate].
    cbn [option_map]. intros [= <-] [= <-].
    apply (chunksOf_mono _ _ _ _ (Nat.max f1 f2)) in E1; [|lia].
    apply (chunksOf_mono _ _ _ _ (Nat.max f1 f2)) in E2; [|lia].
    congruence.
  - destruct (weightsOf Next f1 _) as [x1|] eqn:E1; [|discriminate].
    destruct (weightsOf Next f2 _) as [x2|] eqn:E2; [|discriminate].
    cbn [option_map]. intros [= <-] [= <-].
    apply (weightsOf_mono _ _ _ _ (Nat.max f1 f2)) in E1; [|lia].
    apply (weightsOf_mono _ _ _ _ (Nat.max f1 f2)) in E2; [|lia].
    congruence.
Qed.

(** [WeightString] is the padding of [dst] with the weight bytes behind
    it. *)
Lemma WeightString900_emitted (fuel : nat) (dst : slice) (src : list byte)
      (numCodepoints : Z) (bs : list byte) :
  weightBytes900 c fuel src = Some bs ->
  exists d,
    Collation_utf8mb4_uca_0900.WeightString c fuel dst src numCodepoints =
    Some (Collation_utf8mb4_uca_0900.performPadding d numCodepoints)
    /\ data d = data dst ++ bs
    /\ (len dst + Z.of_nat (length bs) <= cap dst -> cap d = cap dst).
Proof.
  unfold weightBytes900, Collation_utf8mb4_uca_0900.WeightString.
  cbv zeta. destruct (isFastIterator900 _).
  - destruct (chunksOf NextChunk fuel _) as [[bs1 it1]|] eqn:E;
      [|discriminate].
    cbn [option_map fst]. intros [= <-].
    destruct (emitChunks_spec _ _ _ _ dst E) as (d & -> & Hd).
    exists d. split; [reflexivity | exact Hd].
  - destruct (weightsOf Next fuel _) as [[ws it1]|] eqn:E; [|discriminate].
    cbn [option_map fst]. intros [= <-].
    unfold Collation_utf8mb4_uca_0900.emitWeights.
    destruct (appendWeights_spec Next _ _ _ _ dst E) as (d & -> & Hd).
    exists d. split; [reflexivity | exact Hd].
Qed.

(** With [PadToMax], zero bytes fill the result up to its capacity. *)
Lemma WeightString900_PadToMax (fuel : nat) (dst : slice) (src : list byte) :
  (needed900 c src < fuel)%nat ->
  exists bs r,
    weightBytes900 c fuel src = Some bs
    /\ Collation_utf8mb4_uca_0900.WeightString c fuel dst src PadToMax
       = Some r
    /\ data r =
       data dst ++ bs
       ++ repeat 0x00 (Z.to_nat (cap r - (len dst + Z.of_nat (length bs))))
    /\ (len dst + Z.of_nat (length bs) <= cap dst -> cap r = cap dst).
Proof.
  intros Hfuel.
  destruct (weightBytes900_total _ _ Hfuel) as (bs & Hbs).
  destruct (WeightString900_emitted fuel dst src PadToMax bs Hbs)
    as (d & Hws & Hdata & Hcap).
  exists bs. eexists. split; [assumption|]. split; [exact Hws|].
  unfold Collation_utf8mb4_uca_0900.performPadding.
  rewrite Z.eqb_refl, padZero_spec. cbn [data cap].
  replace (len d) with (len dst + Z.of_nat (length bs))
    by (unfold len; rewrite Hdata, length_app; lia).
  rewrite Hdata, <- app_assoc. auto.
Qed.

(** Without [PadToMax], nothing comes behind the weight bytes. *)
Lemma WeightString900_no_padding (fuel : nat) (dst : slice)
      (src : list byte) (numCodepoints : Z) :
  (needed900 c src < fuel)%nat ->
  numCodepoints <> PadToMax ->
  exists bs r,
    weightBytes900 c fuel src = Some bs
    /\ Collation_utf8mb4_uca_0900.WeightString c fuel dst src numCodepoints
       = Some r
    /\ data r = data dst ++ bs.
Proof.
  intros Hfuel Hn.
  destruct (weightBytes900_total _ _ Hfuel) as (bs & Hbs).
  destruct (WeightString900_emitted fuel dst src numCodepoints bs Hbs)
    as (d & Hws & Hdata & Hcap).
  exists bs. eexists. split; [assumption|]. split; [exact Hws|].
  unfold Collation_utf8mb4_uca_0900.performPadding.
  apply Z.eqb_neq in Hn. rewrite Hn. assumption.
Qed.

End WeightString900.

(** ** WeightString of the legacy collations *)

Section WeightStringLegacy.
Context {St : Type} `{WeightIteratorLegacy St}.
Context `{!WeightIteratorLegacyLaws St}.
Context `{GoRuntime} `{Constants}.
Variable c : Collation_uca_legacy.t St.

Let w1 := hi_byte (WeightForSpace (Collation_uca_legacy.uca c)).
Let w2 := lo_byte (WeightForSpace (Collation_uca_legacy.uca c)).

Lemma weightsLegacy_total (fuel : nat) (src : list byte) :
  (neededLegacy c src < fuel)%nat ->
  exists ws it, weightsLegacy c fuel src = Some (ws, it).
Proof.
  intros Hlt.
  apply (weightsOf_total NextLegacy remainingLegacy NextLegacy_remaining).
  exact Hlt.
Qed.

Lemma weightsLegacy_fuel (f1 f2 : nat) (src : list byte) x1 x2 :
  weightsLegacy c f1 src = Some x1 ->
  weightsLegacy c f2 src = Some x2 ->
  x1 = x2.
Proof.
  unfold weightsLegacy. intros E1 E2.
  apply (weightsOf_mono _ _ _ _ (Nat.max f1 f2)) in E1; [|lia].
  apply (weightsOf_mono _ _ _ _ (Nat.max f1 f2)) in E2; [|lia].
  congruence.
Qed.

Lemma WeightStringLegacy_emitted (fuel : nat) (dst : slice)
      (src : list byte) (numCodepoints : Z) ws it :
  weightsLegacy c fuel src = Some (ws, it) ->
  exists d,
    Collation_uca_legacy.WeightString c fuel dst src numCodepoints =
    Some (Collation_uca_legacy.pad c it d numCodepoints)
    /\ data d = data dst ++ weight_bytes ws
    /\ (len dst + Z.of_nat (length (weight_bytes ws)) <= cap dst ->
        cap d = cap dst).
Proof.
  unfold weightsLegacy, Collation_uca_legacy.WeightString,
    Collation_uca_legacy.emitWeights.
  intros E.
  destruct (appendWeights_spec NextLegacy _ _ _ _ dst E) as (d & -> & Hd).
  exists d. split; [reflexivity | exact Hd].
Qed.

(** With [PadToMax], the bytes of the space weight fill the result up to
    its capacity. *)
Lemma WeightStringLegacy_PadToMax (fuel : nat) (dst : slice)
      (src : list byte) :
  0 < PadToMax ->
  (neededLegacy c src < fuel)%nat ->
  exists ws it r,
    weightsLegacy c fuel src = Some (ws, it)
    /\ Collation_uca_legacy.WeightString c fuel dst src PadToMax = Some r
    /\ data r =
       data dst ++ weight_bytes ws
       ++ space_fill w1 w2
            (Z.to_nat (cap r
                       - (len dst + Z.of_nat (length (weight_bytes ws)))))
    /\ (len dst + Z.of_nat (length (weight_bytes ws)) <= cap dst ->
        cap r = cap dst).
Proof.
  intros Hpos Hfuel.
  destruct (weightsLegacy_total _ _ Hfuel) as (ws & it & Hws).
  destruct (WeightStringLegacy_emitted fuel dst src PadToMax ws it Hws)
    as (d & Hr & Hdata & Hcap).
  exists ws, it. eexists. split; [assumption|]. split; [exact Hr|].
  unfold Collation_uca_legacy.pad. cbv zeta.
  apply Z.ltb_lt in Hpos. rewrite Hpos, Z.eqb_refl, padSpace_spec.
  cbn [data cap]. fold w1 w2.
  replace (len d) with (len dst + Z.of_nat (length (weight_bytes ws)))
    by (unfold len; rewrite Hdata, length_app; lia).
  rewrite Hdata, <- app_assoc. auto.
Qed.

(** With a count, one space weight for every codepoint that [src] is
    short of it. *)
Lemma WeightStringLegacy_count (fuel : nat) (dst : slice)
      (src : list byte) (numCodepoints : Z) :
  (neededLegacy c src < fuel)%nat ->
  0 < numCodepoints -> numCodepoints <> PadToMax ->
  exists ws it r,
    weightsLegacy c fuel src = Some (ws, it)
    /\ Collation_uca_legacy.WeightString c fuel dst src numCodepoints
       = Some r
    /\ data r =
       data dst ++ weight_bytes ws
       ++ concat (repeat [w1; w2]
                    (Z.to_nat (int_sub numCodepoints (Length it)))).
Proof.
  intros Hfuel Hpos Hn.
  destruct (weightsLegacy_total _ _ Hfuel) as (ws & it & Hws).
  destruct (WeightStringLegacy_emitted fuel dst src numCodepoints ws it Hws)
    as (d & Hr & Hdata & Hcap).
  exists ws, it. eexists. split; [assumption|]. split; [exact Hr|].
  unfold Collation_uca_legacy.pad. cbv zeta.
  apply Z.ltb_lt in Hpos. apply Z.eqb_neq in Hn. rewrite Hpos, Hn.
  rewrite padCount_data, Hdata, <- app_assoc. reflexivity.
Qed.

End WeightStringLegacy.

(** ** The table-driven iterators meet what is asked of an iterator *)

Section ModelFacts.
Import Model.

Lemma next900_remaining (s : iterator900) (w : uint16) (s' : iterator900) :
  next900 s = (w, true, s') -> (measure900 s' < measure900 s)%nat.
Proof.
  unfold next900, measure900.
  destruct (levels s) as [|[|x xs] [|y more]]; intros [= <- <-];
    cbn [levels concat length app]; rewrite ?length_app; cbn [length]; lia.
Qed.

Lemma next900_le (s : iterator900) (w : uint16) (ok : bool)
      (s' : iterator900) :
  next900 s = (w, ok, s') -> (measure900 s' <= measure900 s)%nat.
Proof.
  unfold next900, measure900.
  destruct (levels s) as [|[|x xs] [|y more]]; intros [= <- <- <-];
    cbn [levels concat length app]; rewrite ?length_app; cbn [length]; lia.
Qed.

Lemma next900_Level (s : iterator900) (w : uint16) (ok : bool)
      (s' : iterator900) :
  next900 s = (w, ok, s') -> level s' = level s \/ level s' = level s + 1.
Proof.
  unfold next900.
  destruct (levels s) as [|[|x xs] [|y more]]; intros [= <- <- <-];
    cbn [level]; auto.
Qed.

#[export] Instance iterator900_laws : WeightIteratorLaws iterator900 :=
  {| remaining := measure900;
     Next_remaining := next900_remaining;
     Next_Level := next900_Level |}.

Lemma nextChunk900_measure (n : nat) :
  forall (s : iterator900) (bs : list byte) (s' : iterator900),
  nextChunk900 n s = (bs, s') ->
  (measure900 s' <= measure900 s)%nat
  /\ (bs <> [] -> (measure900 s' < measure900 s)%nat).
Proof.
  induction n as [|n IH]; intros s bs s'; cbn [nextChunk900].
  - intros [= <- <-]. split; [lia | congruence].
  - destruct (next900 s) as [[w ok] s1] eqn:E.
    destruct ok; cbn [negb].
    + destruct (nextChunk900 n s1) as [bs1 s2] eqn:E1.
      intros [= <- <-].
      apply next900_remaining in E. apply IH in E1 as [Hle _].
      split; intros; lia.
    + intros [= <- <-]. apply next900_le in E.
      split; [lia | congruence].
Qed.

Lemma nextChunk900_remaining (s : iterator900) (chunk : list byte)
      (s' : iterator900) :
  NextChunk s = (chunk, s') -> chunk <> [] ->
  (measure900 s' < measure900 s)%nat.
Proof.
  intros E Hne. exact (proj2 (nextChunk900_measure _ _ _ _ E) Hne).
Qed.

#[export] Instance iterator900_fast_laws : FastIterator900Laws iterator900 :=
  {| remainingChunks := measure900;
     NextChunk_remaining := nextChunk900_remaining |}.

Lemma nextCodepoint_remaining (cps : list (list uint16)) :
  forall (n : Z) (w : uint16) (s' : iteratorLegacy),
  nextCodepoint cps n = (w, true, s') ->
  (measureLegacy s' < length (concat cps) + length cps)%nat.
Proof.
  unfold measureLegacy.
  induction cps as [|[|x xs] more IH]; intros n w s'; cbn [nextCodepoint].
  - discriminate.
  - intros E. apply IH in E. cbn [concat length app]. lia.
  - intros [= <- <-]. cbn [codepoints current concat length app].
    rewrite length_app. lia.
Qed.

Lemma nextLegacy_remaining (s : iteratorLegacy) (w : uint16)
      (s' : iteratorLegacy) :
  nextLegacy s = (w, true, s') -> (measureLegacy s' < measureLegacy s)%nat.
Proof.
  unfold nextLegacy. destruct (current s) as [|x xs] eqn:Ec.
  - intros E. apply nextCodepoint_remaining in E.
    unfold measureLegacy at 2. rewrite Ec. cbn [length]. lia.
  - intros [= <- <-]. unfold measureLegacy.
    rewrite Ec. cbn [codepoints current length]. lia.
Qed.

Lemma lengthLegacy_range (s : iteratorLegacy) : 0 <= Length s < 2 ^ 63.
Proof. cbn [Length iteratorLegacy_WeightIteratorLegacy].
       apply Z.mod_pos_bound. lia. Qed.

#[export] Instance iteratorLegacy_laws
  : WeightIteratorLegacyLaws iteratorLegacy :=
  {| remainingLegacy := measureLegacy;
     NextLegacy_remaining := nextLegacy_remaining;
     Length_range := lengthLegacy_range |}.

End ModelFacts.

(** ** Padding: the two collations side by side *)

Lemma space_fill_pairs (w1 w2 : byte) (k : nat) :
  space_fill w1 w2 k =
  concat (repeat [w1; w2] (Nat.div2 k)) ++ (if Nat.odd k then [w1] else []).
Proof.
  induction k as [k IH] using (well_founded_induction Wf_nat.lt_wf).
  destruct k as [|[|k]]; try reflexivity.
  cbn [space_fill]. rewrite IH by lia.
  change (Nat.odd (S (S k))) with (Nat.odd k).
  reflexivity.
Qed.

Section PaddingClaims.
Context {StM : Type} `{WeightIterator StM} `{FastIterator900 StM}.
Context `{!WeightIteratorLaws StM} `{!FastIterator900Laws StM}.
Context {StL : Type} `{WeightIteratorLegacy StL}.
Context `{!WeightIteratorLegacyLaws StL}.
Context `{GoRuntime} `{Constants}.
Variable modern : Collation_utf8mb4_uca_0900.t StM.
Variable legacy : Collation_uca_legacy.t StL.

Let w1 := hi_byte (WeightForSpace (Collation_uca_legacy.uca legacy)).
Let w2 := lo_byte (WeightForSpace (Collation_uca_legacy.uca legacy)).

(** C5, amended: with [PadToMax], what follows the weight bytes fills the
    result up to its capacity, which is the capacity of [dst] when the
    weights fit in; the 900 collations fill with zero bytes, the legacy
    collations with the bytes of the space weight, high byte first. *)
Theorem WeightString_PadToMax_fill (fuel : nat) (dst : slice)
        (src : list byte) :
  0 < PadToMax ->
  (needed900 modern src < fuel)%nat ->
  (neededLegacy legacy src < fuel)%nat ->
  (exists bs r,
      weightBytes900 modern fuel src = Some bs
      /\ Collation_utf8mb4_uca_0900.WeightString modern fuel dst src PadToMax
         = Some r
      /\ filled_with (repeat 0x00) dst bs r
      /\ (len dst + Z.of_nat (length bs) <= cap dst -> cap r = cap dst))
  /\ (exists ws it r,
         weightsLegacy legacy fuel src = Some (ws, it)
         /\ Collation_uca_legacy.WeightString legacy fuel dst src PadToMax
            = Some r
         /\ filled_with (space_fill w1 w2) dst (weight_bytes ws) r
         /\ (len dst + Z.of_nat (length (weight_bytes ws)) <= cap dst ->
             cap r = cap dst)).
Proof.
  intros Hpos Hm Hl. split.
  - exact (WeightString900_PadToMax modern fuel dst src Hm).
  - exact (WeightStringLegacy_PadToMax legacy fuel dst src Hpos Hl).
Qed.

(** C6: with a positive count that is not [PadToMax], a legacy collation
    appends the space weight once for every codepoint by which the
    codepoints of [src] fall short of the count, so that codepoints and
    space weights together reach the count; a 900 collation appends
    nothing to the weights. *)
Theorem WeightString_count_padding (fuel : nat) (dst : slice)
        (src : list byte) (numCodepoints : Z) :
  0 < numCodepoints < 2 ^ 63 ->
  numCodepoints <> PadToMax ->
  (needed900 modern src < fuel)%nat ->
  (neededLegacy legacy src < fuel)%nat ->
  (exists ws it r (pads : nat),
      weightsLegacy legacy fuel src = Some (ws, it)
      /\ Collation_uca_legacy.WeightString legacy fuel dst src numCodepoints
         = Some r
      /\ data r =
         data dst ++ weight_bytes ws ++ concat (repeat [w1; w2] pads)
      /\ Length it + Z.of_nat pads = Z.max numCodepoints (Length it))
  /\ (exists bs r,
         weightBytes900 modern fuel src = Some bs
         /\ Collation_utf8mb4_uca_0900.WeightString modern fuel dst src
              numCodepoints = Some r
         /\ data r = data dst ++ bs).
Proof.
  intros Hpos Hn Hm Hl. split.
  - destruct (WeightStringLegacy_count legacy fuel dst src numCodepoints
                Hl (proj1 Hpos) Hn) as (ws & it & r & Hws & Hr & Hdata).
    exists ws, it, r. eexists. repeat split; [exact Hws | exact Hr | exact Hdata |].
    pose proof (Length_range it) as HL.
    unfold int_sub. rewrite int_wrap_small by lia. lia.
  - exact (WeightString900_no_padding modern fuel dst src numCodepoints
             Hm Hn).
Qed.

(** C10, amended: a legacy [WeightString] with [PadToMax] into a
    destination whose capacity is greater than its length and the weight
    bytes together returns a slice whose length is that capacity: behind
    the weights the space weight follows as often as two bytes fit, high
    byte then low byte, and its high byte alone when one byte is left, so
    that the result can end in the middle of a weight.  Nothing is
    reallocated. *)
Theorem WeightString_legacy_PadToMax_length (fuel : nat) (dst : slice)
        (src : list byte) (ws : list uint16) (it : StL) :
  0 < PadToMax ->
  weightsLegacy legacy fuel src = Some (ws, it) ->
  len dst + Z.of_nat (length (weight_bytes ws)) < cap dst ->
  exists (r : slice) (room : nat),
    Collation_uca_legacy.WeightString legacy fuel dst src PadToMax = Some r
    /\ Z.of_nat room =
       cap dst - (len dst + Z.of_nat (length (weight_bytes ws)))
    /\ len r = cap dst
    /\ cap r = cap dst
    /\ data r =
       data dst ++ weight_bytes ws
       ++ concat (repeat [w1; w2] (Nat.div2 room))
       ++ (if Nat.odd room then [w1] else [])
    /\ (0 <= WeightForSpace (Collation_uca_legacy.uca legacy) < 65536 ->
        WeightForSpace (Collation_uca_legacy.uca legacy) = 256 * w1 + w2).
Proof.
  intros Hpos Hws Hroom.
  destruct (WeightStringLegacy_emitted legacy fuel dst src PadToMax ws it Hws)
    as (d & Hr & Hdata & Hcap).
  specialize (Hcap ltac:(lia)).
  assert (HL : len d = Z.of_nat (length (data d))) by reflexivity.
  assert (Hlen : len d = len dst + Z.of_nat (length (weight_bytes ws)))
    by (unfold len; rewrite Hdata, length_app; lia).
  eexists. exists (Z.to_nat (cap d - len d)).
  split; [exact Hr|].
  unfold Collation_uca_legacy.pad. cbv zeta.
  apply Z.ltb_lt in Hpos. rewrite Hpos, Z.eqb_refl, padSpace_spec.
  fold w1 w2. cbn [data cap].
  split; [lia|]. split.
  { rewrite len_app, space_fill_length. lia. }
  split; [assumption|]. split.
  { rewrite Hdata, <- app_assoc, space_fill_pairs. reflexivity. }
  intros Hw. exact (hi_lo_byte _ Hw).
Qed.

(** C9, amended: [WeightString] returns the bytes of [dst] followed by
    bytes of its own.  When the count is not [PadToMax] these do not
    depend on [dst]: two calls with the same source and count append the
    same bytes to whatever destinations they are given.  With
    [PadToMax] they also depend on the room in [dst]: two destinations
    that hold the weights and have the same room get the same bytes. *)
Theorem WeightString_appended_bytes (f1 f2 : nat) (dst1 dst2 : slice)
        (src : list byte) (numCodepoints : Z) :
  (needed900 modern src < f1)%nat -> (needed900 modern src < f2)%nat ->
  (neededLegacy legacy src < f1)%nat -> (neededLegacy legacy src < f2)%nat ->
  (exists bs r1 r2 suffix1 suffix2,
      weightBytes900 modern f1 src = Some bs
      /\ Collation_utf8mb4_uca_0900.WeightString modern f1 dst1 src
           numCodepoints = Some r1
      /\ Collation_utf8mb4_uca_0900.WeightString modern f2 dst2 src
           numCodepoints = Some r2
      /\ data r1 = data dst1 ++ suffix1
      /\ data r2 = data dst2 ++ suffix2
      /\ (numCodepoints <> PadToMax -> suffix1 = suffix2)
      /\ (len dst1 + Z.of_nat (length bs) <= cap dst1 ->
          len dst2 + Z.of_nat (length bs) <= cap dst2 ->
          cap dst1 - len dst1 = cap dst2 - len dst2 ->
          suffix1 = suffix2))
  /\ (exists ws it r1 r2 suffix1 suffix2,
         weightsLegacy legacy f1 src = Some (ws, it)
         /\ Collation_uca_legacy.WeightString legacy f1 dst1 src
              numCodepoints = Some r1
         /\ Collation_uca_legacy.WeightString legacy f2 dst2 src
              numCodepoints = Some r2
         /\ data r1 = data dst1 ++ suffix1
         /\ data r2 = data dst2 ++ suffix2
         /\ (numCodepoints <> PadToMax -> suffix1 = suffix2)
         /\ (len dst1 + Z.of_nat (length (weight_bytes ws)) <= cap dst1 ->
             len dst2 + Z.of_nat (length (weight_bytes ws)) <= cap dst2 ->
             cap dst1 - len dst1 = cap dst2 - len dst2 ->
             suffix1 = suffix2)).
Proof.
  intros Hm1 Hm2 Hl1 Hl2. split.
  - destruct (weightBytes900_total modern _ _ Hm1) as (bs & Hbs1).
    destruct (weightBytes900_total modern _ _ Hm2) as (bs2 & Hbs2).
    pose proof (weightBytes900_fuel modern _ _ _ _ _ Hbs1 Hbs2) as <-.
    destruct (WeightString900_emitted modern f1 dst1 src numCodepoints bs Hbs1)
      as (d1 & Hr1 & Hd1 & Hc1).
    destruct (WeightString900_emitted modern f2 dst2 src numCodepoints bs Hbs2)
      as (d2 & Hr2 & Hd2 & Hc2).
    assert (Hlen1 : len d1 = len dst1 + Z.of_nat (length bs))
      by (unfold len; rewrite Hd1, length_app; lia).
    assert (Hlen2 : len d2 = len dst2 + Z.of_nat (length bs))
      by (unfold len; rewrite Hd2, length_app; lia).
    unfold Collation_utf8mb4_uca_0900.performPadding in Hr1, Hr2.
    destruct (numCodepoints =? PadToMax) eqn:En.
    + rewrite padZero_spec in Hr1, Hr2.
      exists bs. do 2 eexists.
      exists (bs ++ repeat 0x00 (Z.to_nat (cap d1 - len d1))),
             (bs ++ repeat 0x00 (Z.to_nat (cap d2 - len d2))).
      split; [exact Hbs1|]. split; [exact Hr1|]. split; [exact Hr2|].
      cbn [data]. rewrite Hd1, Hd2, <- !app_assoc.
      split; [reflexivity|]. split; [reflexivity|]. split.
      * apply Z.eqb_eq in En. congruence.
      * intros Hf1 Hf2 Hroom. rewrite (Hc1 Hf1), (Hc2 Hf2).
        do 2 f_equal. lia.
    + exists bs. do 2 eexists. exists bs, bs.
      split; [exact Hbs1|]. split; [exact Hr1|]. split; [exact Hr2|].
      auto.
  - destruct (weightsLegacy_total legacy _ _ Hl1) as (ws & it & Hws1).
    destruct (weightsLegacy_total legacy _ _ Hl2) as (ws2 & it2 & Hws2).
    pose proof (weightsLegacy_fuel legacy _ _ _ _ _ Hws1 Hws2) as [= <- <-].
    destruct (WeightStringLegacy_emitted legacy f1 dst1 src numCodepoints
                ws it Hws1) as (d1 & Hr1 & Hd1 & Hc1).
    destruct (WeightStringLegacy_emitted legacy f2 dst2 src numCodepoints
                ws it Hws2) as (d2 & Hr2 & Hd2 & Hc2).
    assert (Hlen1 : len d1 = len dst1 + Z.of_nat (length (weight_bytes ws)))
      by (unfold len; rewrite Hd1, length_app; lia).
    assert (Hlen2 : len d2 = len dst2 + Z.of_nat (length (weight_bytes ws)))
      by (unfold len; rewrite Hd2, length_app; lia).
    unfold Collation_uca_legacy.pad in Hr1, Hr2. cbv zeta in Hr1, Hr2.
    fold w1 w2 in Hr1, Hr2.
    destruct (0 <? numCodepoints) eqn:E0;
      [destruct (numCodepoints =? PadToMax) eqn:En|].
    + rewrite padSpace_spec in Hr1, Hr2.
      exists ws, it. do 2 eexists.
      exists (weight_bytes ws
              ++ space_fill w1 w2 (Z.to_nat (cap d1 - len d1))),
             (weight_bytes ws
              ++ space_fill w1 w2 (Z.to_nat (cap d2 - len d2))).
      split; [exact Hws1|]. split; [exact Hr1|]. split; [exact Hr2|].
      cbn [data]. rewrite Hd1, Hd2, <- !app_assoc.
      split; [reflexivity|]. split; [reflexivity|]. split.
      * apply Z.eqb_eq in En. congruence.
      * intros Hf1 Hf2 Hroom. rewrite (Hc1 Hf1), (Hc2 Hf2).
        do 2 f_equal. lia.
    + exists ws, it. do 2 eexists.
      exists (weight_bytes ws
              ++ concat (repeat [w1; w2]
                           (Z.to_nat (int_sub numCodepoints (Length it))))).
      eexists.
      split; [exact Hws1|]. split; [exact Hr1|]. split; [exact Hr2|].
      rewrite !padCount_data, Hd1, Hd2, <- !app_assoc. auto.
    + exists ws, it. do 2 eexists.
      exists (weight_bytes ws), (weight_bytes ws).
      split; [exact Hws1|]. split; [exact Hr1|]. split; [exact Hr2|].
      auto.
Qed.

End PaddingClaims.

(** ** Collate of the 900 collations *)

Lemma sgn_sub_antisym (l r : Z) : Z.sgn (l - r) = - Z.sgn (r - l).
Proof.
  rewrite <- Z.sgn_opp. f_equal. lia.
Qed.

Section Collate900.
Context {St : Type} `{WeightIterator St} `{!WeightIteratorLaws St}.
Variable c : Collation_utf8mb4_uca_0900.t St.

(** Both iterators at [level]: what holds whenever the comparison loop
    is entered without prefix matching. *)
Lemma Collate_from_antisymmetric (fuel : nat) :
  forall (level : Z) (itleft itright : St),
  Level itleft = level -> Level itright = level ->
  (remaining itleft < fuel)%nat ->
  exists x y,
    value (Collation_utf8mb4_uca_0900.Collate_from
             c fuel level itleft itright false) = Some x
    /\ value (Collation_utf8mb4_uca_0900.Collate_from
                c fuel level itright itleft false) = Some y
    /\ Z.sgn x = - Z.sgn y.
Proof.
  induction fuel as [|fuel IH]; intros level itl itr HL HR Hlt; [lia|].
  cbn [Collation_utf8mb4_uca_0900.Collate_from].
  destruct (Next itl) as [[l lok] itl1] eqn:EL.
  destruct (Next itr) as [[r rok] itr1] eqn:ER.
  pose proof (Next_Level _ _ _ _ EL) as HL1.
  pose proof (Next_Level _ _ _ _ ER) as HR1.
  assert (Hrec : lok = true -> (remaining itl1 < fuel)%nat).
  { intros ->. apply Next_remaining in EL. lia. }
  rewrite (Z.eqb_sym r l), (Z.eqb_sym (Level itr1) (Level itl1)).
  rewrite !Z.gtb_ltb.
  destruct (Z.eqb_spec l r) as [Elr|Nlr];
    destruct lok, rok;
    destruct (Z.eqb_spec (Level itl1) level) as [El|Nl];
    destruct (Z.eqb_spec (Level itr1) level) as [Er|Nr];
    cbn [negb orb andb];
    try (apply IH; auto; lia);
    destruct (Z.eqb_spec (Level itl1) (Level itr1)) as [Ell|Nll];
    try lia;
    try (destruct (Z.ltb_spec (level + 1)
                     (Collation_utf8mb4_uca_0900.levelsForCompare c));
         [apply IH; auto; lia|]);
    try destruct (Z.ltb_spec level (Level itl1));
    try destruct (Z.ltb_spec level (Level itr1));
    try lia;
    cbn [value option_map fst];
    do 2 eexists; (split; [reflexivity|]); (split; [reflexivity|]);
    try apply sgn_sub_antisym; try reflexivity.
Qed.


(** C3, amended: with [rightIsPrefix], when the right operand has run out
    of weights at the level while the left one still is at it, [SkipLevel]
    is called on the left iterator; the call returns [-int(r)], for the
    last weight [r] of the right, when the level [SkipLevel] returns is
    not below [levelsForCompare], and goes on comparing at that level
    otherwise.  When it is the left operand that has run out, the call
    returns -1, with or without [rightIsPrefix], and [SkipLevel] is not
    called. *)
Theorem Collate_prefix_skips_left (fuel : nat) (level : Z)
        (itleft itright : St) (l r : uint16) (lok rok : bool)
        (itleft1 itright1 : St) :
  Next itleft = (l, lok, itleft1) ->
  Next itright = (r, rok, itright1) ->
  (Level itleft1 <= level < Level itright1 ->
   Collation_utf8mb4_uca_0900.Collate_from
     c (S fuel) level itleft itright true =
   let '(level', itleft2) := SkipLevel itleft1 in
   if level' <? Collation_utf8mb4_uca_0900.levelsForCompare c
   then Collation_utf8mb4_uca_0900.Collate_from
          c fuel level' itleft2 itright1 true
   else Some (- r, itleft2, itright1))
  /\ (level < Level itleft1 -> Level itleft1 <> Level itright1 ->
      forall rightIsPrefix,
        Collation_utf8mb4_uca_0900.Collate_from
          c (S fuel) level itleft itright rightIsPrefix =
        Some (-1, itleft1, itright1)).
Proof.
  intros EL ER. split.
  - intros [Hl Hr].
    cbn [Collation_utf8mb4_uca_0900.Collate_from]. rewrite EL, ER.
    destruct (Z.eqb_spec (Level itright1) level) as [E|_]; [lia|].
    cbn [negb]. rewrite !orb_true_r.
    destruct (Z.eqb_spec (Level itleft1) (Level itright1)) as [E|_]; [lia|].
    destruct (Z.gtb_spec (Level itleft1) level); [lia|].
    destruct (Z.gtb_spec (Level itright1) level); [|lia].
    reflexivity.
  - intros Hl Hne rightIsPrefix.
    cbn [Collation_utf8mb4_uca_0900.Collate_from]. rewrite EL, ER.
    destruct (Z.eqb_spec (Level itleft1) level) as [E|_]; [lia|].
    cbn [negb]. rewrite orb_true_l, orb_true_r.
    destruct (Z.eqb_spec (Level itleft1) (Level itright1)) as [E|_];
      [contradiction|].
    destruct (Z.gtb_spec (Level itleft1) level); [|lia].
    reflexivity.
Qed.

End Collate900.

(** ** Collate of the legacy collations *)

Section CollateLegacy.
Context {St : Type} `{WeightIteratorLegacy St}.
Variable c : Collation_uca_legacy.t St.

(** Rounds with equal weights only use up fuel. *)
Lemma Collate_loop_lockstep (k : nat) (l r l' r' : St) :
  lockstep NextLegacy k l r l' r' ->
  forall (fuel : nat) (isPrefix : bool),
  Collation_uca_legacy.Collate_loop (k + fuel) l r isPrefix =
  Collation_uca_legacy.Collate_loop fuel l' r' isPrefix.
Proof.
  induction 1 as [|k l r w l1 r1 l' r' EL ER _ IH]; intros fuel isPrefix.
  - reflexivity.
  - cbn [Nat.add Collation_uca_legacy.Collate_loop].
    rewrite EL, ER, Z.eqb_refl. cbn [andb]. apply IH.
Qed.

(** C4, amended: with [isPrefix], [Collate] returns 0 when the weights of
    the right side are exhausted after weights that were all equal,
    whatever the left side still has; when only the left side is
    exhausted it returns the difference of the two values read last. *)
Theorem Collate_legacy_prefix (fuel k : nat) (left right : list byte)
        (itleft itright : St) (l r : uint16) (lok rok : bool)
        (itleft1 itright1 : St) :
  lockstep NextLegacy k
           (IteratorLegacy (Collation_uca_legacy.uca c) left)
           (IteratorLegacy (Collation_uca_legacy.uca c) right)
           itleft itright ->
  NextLegacy itleft = (l, lok, itleft1) ->
  NextLegacy itright = (r, rok, itright1) ->
  (k < fuel)%nat ->
  (rok = false ->
   Collation_uca_legacy.Collate c fuel left right true = Some 0)
  /\ (lok = false -> rok = true ->
      Collation_uca_legacy.Collate c fuel left right true = Some (l - r)).
Proof.
  intros Hk EL ER Hfuel.
  unfold Collation_uca_legacy.Collate.
  replace fuel with (k + S (fuel - S k))%nat by lia.
  rewrite (Collate_loop_lockstep _ _ _ _ _ Hk).
  cbn [Collation_uca_legacy.Collate_loop]. rewrite EL, ER.
  split.
  - intros ->. rewrite andb_false_r. reflexivity.
  - intros -> ->. rewrite andb_false_r. reflexivity.
Qed.

End CollateLegacy.

(** ** The properties on the table-driven collations *)

Section Examples.
Import Model.



(** C3 as stated fails: "a" against "ab" with [rightIsPrefix] and one
    level.  After the equal weights of 'a' the left iterator has run out
    of weights and the right one yields the weight of 'b'; [Collate]
    returns -1, not the negated weight, and leaves the left iterator as
    [Next] left it: [SkipLevel] was not called. *)
Lemma Collate_left_exhausted_is_unequal :
  exists itleft itright itleft1 itright1,
    lockstep Next 1
      (Iterator (Collation_utf8mb4_uca_0900.uca ai_ci) [97])
      (Iterator (Collation_utf8mb4_uca_0900.uca ai_ci) [97; 98])
      itleft itright
    /\ Next itleft = (0, false, itleft1)
    /\ Next itright = (0x1C60, true, itright1)
    /\ Level itleft1 = 1 /\ Level itright1 = 0
    /\ Collation_utf8mb4_uca_0900.Collate ai_ci 20 [97] [97; 98] true
       = Some (-1, itleft1, itright1)
    /\ snd (SkipLevel itleft1) <> itleft1
    /\ -1 <> - 0x1C60.
Proof.
  exists {| levels := [[]]; level := 0; fast := true |},
         {| levels := [[0x1C60]]; level := 0; fast := true |},
         {| levels := []; level := 1; fast := true |},
         {| levels := [[]]; level := 0; fast := true |}.
  split.
  { eapply lockstep_S; [reflexivity | reflexivity | apply lockstep_O]. }
  repeat (split; [reflexivity|]).
  split; discriminate.
Qed.

Lemma Collate_prefix_skips_left_witness :
  let itleft := {| levels := [[0x1C60]; [0x20; 0x20]; [0x02; 0x02]];
                   level := 0; fast := false |} in
  let itright := {| levels := [[]; [0x20]; [0x02]];
                    level := 0; fast := false |} in
  let itleft1 := {| levels := [[]; [0x20; 0x20]; [0x02; 0x02]];
                    level := 0; fast := false |} in
  let itright1 := {| levels := [[0x20]; [0x02]];
                     level := 1; fast := false |} in
  Next itleft = (0x1C60, true, itleft1)
  /\ Next itright = (0, true, itright1)
  /\ Level itleft1 <= 0 < Level itright1
  /\ Collation_utf8mb4_uca_0900.Collate_from as_cs 20 0 itleft itright true
     = (let '(level', itleft2) := SkipLevel itleft1 in
        if level' <? Collation_utf8mb4_uca_0900.levelsForCompare as_cs
        then Collation_utf8mb4_uca_0900.Collate_from
               as_cs 19 level' itleft2 itright1 true
        else Some (- 0, itleft2, itright1))
  /\ Collation_utf8mb4_uca_0900.Collate_from as_cs 20 0 itright itleft true
     = Some (-1, itright1, itleft1).
Proof.
  intros itleft itright itleft1 itright1.
  assert (H1 : Next itleft = (0x1C60, true, itleft1)) by reflexivity.
  assert (H2 : Next itright = (0, true, itright1)) by reflexivity.
  assert (H3 : Level itleft1 <= 0 < Level itright1) by (simpl; lia).
  assert (H4 : 0 < Level itright1) by (simpl; lia).
  assert (H5 : Level itright1 <> Level itleft1) by (simpl; lia).
  exact (conj H1 (conj H2 (conj H3 (conj
           (proj1 (Collate_prefix_skips_left as_cs 19 0 itleft itright
                     _ _ _ _ _ _ H1 H2) H3)
           (proj2 (Collate_prefix_skips_left as_cs 19 0 itright itleft
                     _ _ _ _ _ _ H2 H1) H4 H5 true))))).
Defined.

(** C4 as stated fails: "a" against "ab" with [isPrefix].  The left side
    is exhausted after the equal weights of 'a', and [Collate] returns
    the negated weight of 'b', not 0. *)
Lemma Collate_legacy_left_exhausted :
  exists itleft itright itleft1 itright1,
    lockstep NextLegacy 1
      (IteratorLegacy (Collation_uca_legacy.uca legacy_ci) [97])
      (IteratorLegacy (Collation_uca_legacy.uca legacy_ci) [97; 98])
      itleft itright
    /\ NextLegacy itleft = (0, false, itleft1)
    /\ NextLegacy itright = (0x0E4A, true, itright1)
    /\ Collation_uca_legacy.Collate legacy_ci 20 [97] [97; 98] true
       = Some (- 0x0E4A)
    /\ - 0x0E4A <> 0.
Proof.
  exists {| codepoints := []; current := []; length_ := 1 |},
         {| codepoints := [[0x0E4A]]; current := []; length_ := 1 |},
         {| codepoints := []; current := []; length_ := 1 |},
         {| codepoints := []; current := []; length_ := 2 |}.
  split.
  { eapply lockstep_S; [reflexivity | reflexivity | apply lockstep_O]. }
  repeat (split; [reflexivity|]).
  discriminate.
Qed.

Lemma Collate_legacy_prefix_witness :
  let itleft := {| codepoints := [[0x0E4A]]; current := [];
                   length_ := 1 |} in
  let itright := {| codepoints := []; current := []; length_ := 1 |} in
  let itleft1 := {| codepoints := []; current := []; length_ := 2 |} in
  lockstep NextLegacy 1
    (IteratorLegacy (Collation_uca_legacy.uca legacy_ci) [97; 98])
    (IteratorLegacy (Collation_uca_legacy.uca legacy_ci) [97])
    itleft itright
  /\ NextLegacy itleft = (0x0E4A, true, itleft1)
  /\ NextLegacy itright = (0, false, itright)
  /\ (1 < 20)%nat
  /\ Collation_uca_legacy.Collate legacy_ci 20 [97; 98] [97] true = Some 0
  /\ Collation_uca_legacy.Collate legacy_ci 20 [97] [97; 98] true
     = Some (0 - 0x0E4A).
Proof.
  intros itleft itright itleft1.
  assert (H1 : lockstep NextLegacy 1
                 (IteratorLegacy (Collation_uca_legacy.uca legacy_ci)
                                 [97; 98])
                 (IteratorLegacy (Collation_uca_legacy.uca legacy_ci) [97])
                 itleft itright).
  { eapply lockstep_S; [reflexivity | reflexivity | apply lockstep_O]. }
  assert (H2 : NextLegacy itleft = (0x0E4A, true, itleft1)) by reflexivity.
  assert (H3 : NextLegacy itright = (0, false, itright)) by reflexivity.
  assert (H4 : (1 < 20)%nat) by lia.
  assert (H5 : lockstep NextLegacy 1
                 (IteratorLegacy (Collation_uca_legacy.uca legacy_ci) [97])
                 (IteratorLegacy (Collation_uca_legacy.uca legacy_ci)
                                 [97; 98])
                 itright itleft).
  { eapply lockstep_S; [reflexivity | reflexivity | apply lockstep_O]. }
  exact (conj H1 (conj H2 (conj H3 (conj H4 (conj
           (proj1 (Collate_legacy_prefix legacy_ci 20 1 [97; 98] [97]
                     itleft itright _ _ _ _ _ _ H1 H2 H3 H4) eq_refl)
           (proj2 (Collate_legacy_prefix legacy_ci 20 1 [97] [97; 98]
                     itright itleft _ _ _ _ _ _ H5 H3 H2 H4)
                  eq_refl eq_refl)))))).
Defined.

(** C5 as stated fails for the legacy collations: behind the weight of
    'a' the four bytes of room hold the space weight 0x0209 twice, not
    zero bytes. *)
Lemma WeightString_legacy_fill_is_not_zero :
  Collation_uca_legacy.WeightString legacy_ci 20 (mkSlice [] 6) [97] PadToMax
  = Some (mkSlice ([0x0E; 0x33] ++ [0x02; 0x09; 0x02; 0x09]) 6)
  /\ [0x02; 0x09; 0x02; 0x09] <> repeat 0x00 4.
Proof.
  split; [reflexivity | discriminate].
Qed.

Lemma WeightString_PadToMax_fill_witness :
  0 < PadToMax
  /\ (needed900 as_cs [97%Z] < 20)%nat
  /\ (neededLegacy legacy_ci [97%Z] < 20)%nat
  /\ (exists bs r,
        weightBytes900 as_cs 20 [97] = Some bs
        /\ Collation_utf8mb4_uca_0900.WeightString
             as_cs 20 (mkSlice [] 16) [97] PadToMax = Some r
        /\ filled_with (repeat 0x00) (mkSlice [] 16) bs r
        /\ (len (mkSlice [] 16) + Z.of_nat (length bs)
            <= cap (mkSlice [] 16) ->
            cap r = cap (mkSlice [] 16)))
  /\ (exists ws it r,
        weightsLegacy legacy_ci 20 [97] = Some (ws, it)
        /\ Collation_uca_legacy.WeightString
             legacy_ci 20 (mkSlice [] 16) [97] PadToMax = Some r
        /\ filled_with
             (space_fill
                (hi_byte (WeightForSpace (Collation_uca_legacy.uca legacy_ci)))
                (lo_byte (WeightForSpace (Collation_uca_legacy.uca legacy_ci))))
             (mkSlice [] 16) (weight_bytes ws) r
        /\ (len (mkSlice [] 16) + Z.of_nat (length (weight_bytes ws))
            <= cap (mkSlice [] 16) ->
            cap r = cap (mkSlice [] 16))).
Proof.
  assert (H1 : 0 < PadToMax) by (vm_compute; reflexivity).
  assert (H2 : (needed900 as_cs [97%Z] < 20)%nat) by (vm_compute; lia).
  assert (H3 : (neededLegacy legacy_ci [97%Z] < 20)%nat)
    by (vm_compute; lia).
  exact (conj H1 (conj H2 (conj H3
           (WeightString_PadToMax_fill as_cs legacy_ci 20 (mkSlice [] 16)
              [97] H1 H2 H3)))).
Defined.

Lemma WeightString_count_padding_witness :
  0 < 3 < 2 ^ 63
  /\ 3 <> PadToMax
  /\ (needed900 as_cs [97%Z] < 20)%nat
  /\ (neededLegacy legacy_ci [97%Z] < 20)%nat
  /\ (exists ws it r (pads : nat),
        weightsLegacy legacy_ci 20 [97] = Some (ws, it)
        /\ Collation_uca_legacy.WeightString legacy_ci 20 nil_slice [97] 3
           = Some r
        /\ data r =
           data nil_slice ++ weight_bytes ws
           ++ concat
                (repeat
                   [hi_byte (WeightForSpace
                               (Collation_uca_legacy.uca legacy_ci));
                    lo_byte (WeightForSpace
                               (Collation_uca_legacy.uca legacy_ci))] pads)
        /\ Length it + Z.of_nat pads = Z.max 3 (Length it))
  /\ (exists bs r,
        weightBytes900 as_cs 20 [97] = Some bs
        /\ Collation_utf8mb4_uca_0900.WeightString as_cs 20 nil_slice [97] 3
           = Some r
        /\ data r = data nil_slice ++ bs).
Proof.
  assert (H1 : 0 < 3 < 2 ^ 63) by lia.
  assert (H2 : 3 <> PadToMax) by (vm_compute; discriminate).
  assert (H3 : (needed900 as_cs [97%Z] < 20)%nat) by (vm_compute; lia).
  assert (H4 : (neededLegacy legacy_ci [97%Z] < 20)%nat)
    by (vm_compute; lia).
  exact (conj H1 (conj H2 (conj H3 (conj H4
           (WeightString_count_padding as_cs legacy_ci 20 nil_slice [97] 3
              H1 H2 H3 H4))))).
Defined.

Lemma WeightStringLen_panics_iff_unaligned_witness :
  ~ (4 | 5)
  /\ Collation_utf8mb4_uca_0900.WeightStringLen as_cs 5 =
     Panic "WeightStringLen called with non-MOD4 length"
  /\ (4 | 8)
  /\ exists v, Collation_utf8mb4_uca_0900.WeightStringLen as_cs 8 = Ok v.
Proof.
  assert (H1 : ~ (4 | 5)) by (intros [k Hk]; lia).
  assert (H2 : (4 | 8)) by (exists 2; reflexivity).
  exact (conj H1 (conj
           (proj1 (WeightStringLen_panics_iff_unaligned as_cs 5) H1)
           (conj H2
              (proj2 (WeightStringLen_panics_iff_unaligned as_cs 8) H2)))).
Defined.

(** C8 as stated fails: for three levels and no bytes the bound is 4, two
    separator weights of two bytes each, where one byte for a separator
    would give 2. *)
Lemma WeightStringLen_separators_are_weights :
  Collation_utf8mb4_uca_0900.WeightStringLen as_cs 0 = Ok 4
  /\ 4 <> 2 * (0 / 4 * MaxCollationElementsPerCodepoint
               * Collation_utf8mb4_uca_0900.levelsForCompare as_cs)
          + (Collation_utf8mb4_uca_0900.levelsForCompare as_cs - 1).
Proof.
  split; [reflexivity | vm_compute; discriminate].
Qed.

Lemma WeightStringLen_value_witness :
  (4 | 8)
  /\ - 2 ^ 63 <=
     2 * (8 / 4 * MaxCollationElementsPerCodepoint
          * Collation_utf8mb4_uca_0900.levelsForCompare as_cs)
     + 2 * (Collation_utf8mb4_uca_0900.levelsForCompare as_cs - 1) < 2 ^ 63
  /\ Collation_utf8mb4_uca_0900.WeightStringLen as_cs 8 =
     Ok (2 * (8 / 4 * MaxCollationElementsPerCodepoint
              * Collation_utf8mb4_uca_0900.levelsForCompare as_cs)
         + 2 * (Collation_utf8mb4_uca_0900.levelsForCompare as_cs - 1)).
Proof.
  assert (H1 : (4 | 8)) by (exists 2; reflexivity).
  assert (H2 : - 2 ^ 63 <=
               2 * (8 / 4 * MaxCollationElementsPerCodepoint
                    * Collation_utf8mb4_uca_0900.levelsForCompare as_cs)
               + 2 * (Collation_utf8mb4_uca_0900.levelsForCompare as_cs - 1)
               < 2 ^ 63)
    by (vm_compute; split; [discriminate | reflexivity]).
  exact (conj H1 (conj H2 (WeightStringLen_value as_cs 8 H1 H2))).
Defined.

(** C9 as stated fails: the same source and count with two destinations.
    With [PadToMax] an empty destination of capacity 4 gets two zero
    bytes behind the weight, one of capacity 8 gets six; with the count 0
    the bytes already in the destination come first. *)
Lemma WeightString_depends_on_dst :
  Collation_utf8mb4_uca_0900.WeightString ai_ci 20 (mkSlice [] 4) [97]
    PadToMax
  = Some (mkSlice [0x1C; 0x47; 0; 0] 4)
  /\ Collation_utf8mb4_uca_0900.WeightString ai_ci 20 (mkSlice [] 8) [97]
       PadToMax
     = Some (mkSlice [0x1C; 0x47; 0; 0; 0; 0; 0; 0] 8)
  /\ Collation_utf8mb4_uca_0900.WeightString ai_ci 20 (mkSlice [1] 8) [97] 0
     = Some (mkSlice [1; 0x1C; 0x47] 8)
  /\ Collation_utf8mb4_uca_0900.WeightString ai_ci 20 (mkSlice [2] 8) [97] 0
     = Some (mkSlice [2; 0x1C; 0x47] 8)
  /\ [0x1C; 0x47; 0; 0] <> [0x1C; 0x47; 0; 0; 0; 0; 0; 0]
  /\ [1; 0x1C; 0x47] <> [2; 0x1C; 0x47].
Proof.
  repeat (split; [reflexivity|]). split; discriminate.
Qed.

Lemma WeightString_appended_bytes_witness :
  let dst1 := mkSlice [1] 8 in
  let dst2 := mkSlice [2; 3] 16 in
  (needed900 as_cs [97%Z] < 20)%nat
  /\ (needed900 as_cs [97%Z] < 30)%nat
  /\ (neededLegacy legacy_ci [97%Z] < 20)%nat
  /\ (neededLegacy legacy_ci [97%Z] < 30)%nat
  /\ (exists bs r1 r2 suffix1 suffix2,
        weightBytes900 as_cs 20 [97] = Some bs
        /\ Collation_utf8mb4_uca_0900.WeightString as_cs 20 dst1 [97] 0
           = Some r1
        /\ Collation_utf8mb4_uca_0900.WeightString as_cs 30 dst2 [97] 0
           = Some r2
        /\ data r1 = data dst1 ++ suffix1
        /\ data r2 = data dst2 ++ suffix2
        /\ (0 <> PadToMax -> suffix1 = suffix2)
        /\ (len dst1 + Z.of_nat (length bs) <= cap dst1 ->
            len dst2 + Z.of_nat (length bs) <= cap dst2 ->
            cap dst1 - len dst1 = cap dst2 - len dst2 ->
            suffix1 = suffix2))
  /\ (exists ws it r1 r2 suffix1 suffix2,
        weightsLegacy legacy_ci 20 [97] = Some (ws, it)
        /\ Collation_uca_legacy.WeightString legacy_ci 20 dst1 [97] 0
           = Some r1
        /\ Collation_uca_legacy.WeightString legacy_ci 30 dst2 [97] 0
           = Some r2
        /\ data r1 = data dst1 ++ suffix1
        /\ data r2 = data dst2 ++ suffix2
        /\ (0 <> PadToMax -> suffix1 = suffix2)
        /\ (len dst1 + Z.of_nat (length (weight_bytes ws)) <= cap dst1 ->
            len dst2 + Z.of_nat (length (weight_bytes ws)) <= cap dst2 ->
            cap dst1 - len dst1 = cap dst2 - len dst2 ->
            suffix1 = suffix2)).
Proof.
  intros dst1 dst2.
  assert (H2 : (needed900 as_cs [97%Z] < 20)%nat) by (vm_compute; lia).
  assert (H3 : (needed900 as_cs [97%Z] < 30)%nat) by (vm_compute; lia).
  assert (H4 : (neededLegacy legacy_ci [97%Z] < 20)%nat)
    by (vm_compute; lia).
  assert (H5 : (neededLegacy legacy_ci [97%Z] < 30)%nat)
    by (vm_compute; lia).
  exact (conj H2 (conj H3 (conj H4 (conj H5
           (WeightString_appended_bytes as_cs legacy_ci 20 30 dst1 dst2
              [97] 0 H2 H3 H4 H5))))).
Defined.

Lemma WeightString_legacy_PadToMax_length_witness :
  let dst := mkSlice [] 7 in
  let it := {| codepoints := []; current := []; length_ := 1 |} in
  let w1 := hi_byte (WeightForSpace (Collation_uca_legacy.uca legacy_ci)) in
  let w2 := lo_byte (WeightForSpace (Collation_uca_legacy.uca legacy_ci)) in
  0 < PadToMax
  /\ weightsLegacy legacy_ci 20 [97] = Some ([0x0E33], it)
  /\ len dst + Z.of_nat (length (weight_bytes [0x0E33])) < cap dst
  /\ exists (r : slice) (room : nat),
      Collation_uca_legacy.WeightString legacy_ci 20 dst [97] PadToMax
      = Some r
      /\ Z.of_nat room =
         cap dst - (len dst + Z.of_nat (length (weight_bytes [0x0E33])))
      /\ len r = cap dst
      /\ cap r = cap dst
      /\ data r =
         data dst ++ weight_bytes [0x0E33]
         ++ concat (repeat [w1; w2] (Nat.div2 room))
         ++ (if Nat.odd room then [w1] else [])
      /\ (0 <= WeightForSpace (Collation_uca_legacy.uca legacy_ci) < 65536 ->
          WeightForSpace (Collation_uca_legacy.uca legacy_ci)
          = 256 * w1 + w2).
Proof.
  intros dst it w1 w2.
  assert (H1 : 0 < PadToMax) by (vm_compute; reflexivity).
  assert (H2 : weightsLegacy legacy_ci 20 [97] = Some ([0x0E33], it))
    by reflexivity.
  assert (H3 : len dst + Z.of_nat (length (weight_bytes [0x0E33])) < cap dst)
    by (vm_compute; reflexivity).
  exact (conj H1 (conj H2 (conj H3
           (WeightString_legacy_PadToMax_length legacy_ci 20 dst [97]
              [0x0E33] it H1 H2 H3)))).
Defined.

(** C10 as stated fails: a destination that holds five bytes in a
    capacity of six, and the source "a" with its two weight bytes.  The
    capacity is greater than the length of the weights, but the seven bytes
    do not fit in: whatever capacity [append] reallocates to, the result is
    longer than the capacity of the destination. *)
Lemma WeightString_legacy_PadToMax_reallocates :
  weightsLegacy legacy_ci 20 [97]
  = Some ([0x0E33], {| codepoints := []; current := []; length_ := 1 |})
  /\ Z.of_nat (length (weight_bytes [0x0E33]))
     < cap (mkSlice [1; 2; 3; 4; 5] 6)
  /\ (forall runtime : GoRuntime,
        exists r,
          @Collation_uca_legacy.WeightString _ _ runtime _ legacy_ci 20
            (mkSlice [1; 2; 3; 4; 5] 6) [97] PadToMax = Some r
          /\ firstn 7 (data r) = [1; 2; 3; 4; 5; 0x0E; 0x33]
          /\ cap (mkSlice [1; 2; 3; 4; 5] 6) < len r).
Proof.
  split; [reflexivity|]. split; [vm_compute; reflexivity|].
  intros runtime.
  assert (Hpos : 0 < PadToMax) by (vm_compute; reflexivity).
  assert (Hfuel : (neededLegacy legacy_ci [97%Z] < 20)%nat)
    by (vm_compute; lia).
  destruct (@WeightStringLegacy_PadToMax _ _ _ runtime _ legacy_ci 20
              (mkSlice [1; 2; 3; 4; 5] 6) [97] Hpos Hfuel)
    as (ws & it & r & Hws & Hr & Hdata & _).
  assert (Ews : ws = [0x0E33]).
  { change (weightsLegacy legacy_ci 20 [97])
      with (Some ([0x0E33],
                  {| codepoints := []; current := []; length_ := 1 |}))
      in Hws.
    now injection Hws as <- _. }
  subst ws. exists r. split; [exact Hr|].
  unfold len. rewrite Hdata. cbn [data weight_bytes flat_map app].
  split; [reflexivity|].
  cbn [cap length]. lia.
Qed.

(** An empty destination of capacity 7 evaluated: five bytes of room
    behind the weight of 'a', the space weight twice and its high byte. *)
Lemma WeightString_legacy_PadToMax_example :
  Collation_uca_legacy.WeightString legacy_ci 20 (mkSlice [] 7) [97] PadToMax
  = Some (mkSlice [0x0E; 0x33; 0x02; 0x09; 0x02; 0x09; 0x02] 7).
Proof. reflexivity. Qed.

End Examples.

(** * Further properties *)

(** ** WeightString of the binary collation *)

Section Binary.
Context `{GoRuntime} `{Constants}.

Lemma WeightString_bin_data (dst : slice) (src : list byte)
      (numCodepoints : Z) :
  let r := Collation_utf8mb4_0900_bin.WeightString dst src numCodepoints in
  data r =
  data dst ++ src
  ++ (if numCodepoints =? PadToMax
      then repeat 0x00 (Z.to_nat (cap r - (len dst + Z.of_nat (length src))))
      else [])
  /\ (len dst + Z.of_nat (length src) <= cap dst -> cap r = cap dst).
Proof.
  unfold Collation_utf8mb4_0900_bin.WeightString. cbv zeta.
  assert (Hlen : len (append dst src) = len dst + Z.of_nat (length src)).
  { unfold len. rewrite append_data, length_app. lia. }
  destruct (numCodepoints =? PadToMax).
  - rewrite padZero_spec. cbn [data cap]. rewrite Hlen, append_data.
    split; [now rewrite <- app_assoc|].
    intros Hfit. now rewrite (append_fits _ _ Hfit).
  - rewrite append_data, app_nil_r. split; [reflexivity|].
    intros Hfit. now rewrite (append_fits _ _ Hfit).
Qed.

(** X1: the binary [WeightString] returns the bytes of [dst], then [src]
    itself, then, with [PadToMax] only, zero bytes up to the capacity of
    the result.  When [src] fits in, that capacity is the one of [dst],
    and with [PadToMax] it is the length of the result. *)
Theorem WeightString_bin_bytes (dst : slice) (src : list byte)
        (numCodepoints : Z) :
  let r := Collation_utf8mb4_0900_bin.WeightString dst src numCodepoints in
  data r =
  data dst ++ src
  ++ (if numCodepoints =? PadToMax
      then repeat 0x00 (Z.to_nat (cap r - (len dst + Z.of_nat (length src))))
      else [])
  /\ (len dst + Z.of_nat (length src) <= cap dst ->
      cap r = cap dst /\ (numCodepoints = PadToMax -> len r = cap dst)).
Proof.
  intros r.
  destruct (WeightString_bin_data dst src numCodepoints) as [Hdata Hcap].
  fold r in Hdata, Hcap.
  split; [exact Hdata|].
  intros Hfit. specialize (Hcap Hfit). split; [exact Hcap|].
  intros ->. rewrite Z.eqb_refl in Hdata.
  unfold len at 1. rewrite Hdata, !length_app, repeat_length, Hcap.
  unfold len in *. lia.
Qed.

(** X2: [WeightStringLen] of the binary collation is exact: an empty
    destination of that capacity is filled by [src] and nothing else,
    whatever the count, [PadToMax] included. *)
Theorem WeightString_bin_exact_fit (src : list byte) (numCodepoints : Z) :
  Collation_utf8mb4_0900_bin.WeightString
    (mkSlice [] (Collation_utf8mb4_0900_bin.WeightStringLen
                   (Z.of_nat (length src))))
    src numCodepoints
  = mkSlice src (Z.of_nat (length src)).
Proof.
  unfold Collation_utf8mb4_0900_bin.WeightString,
    Collation_utf8mb4_0900_bin.WeightStringLen. cbv zeta.
  rewrite append_fits by (unfold len; cbn [data cap length]; lia).
  cbn [data cap app].
  destruct (numCodepoints =? PadToMax); [|reflexivity].
  rewrite padZero_spec. cbn [data cap]. unfold len. cbn [data].
  replace (Z.to_nat _) with O by lia.
  cbn [repeat]. now rewrite app_nil_r.
Qed.

(** X3: two sources with the same binary weight string in the same
    destination are the same, when the count is not [PadToMax] or the
    sources have the same length. *)
Theorem WeightString_bin_injective (dst : slice) (src1 src2 : list byte)
        (numCodepoints : Z) :
  numCodepoints <> PadToMax \/ length src1 = length src2 ->
  data (Collation_utf8mb4_0900_bin.WeightString dst src1 numCodepoints) =
  data (Collation_utf8mb4_0900_bin.WeightString dst src2 numCodepoints) ->
  src1 = src2.
Proof.
  intros Hcase.
  destruct (WeightString_bin_data dst src1 numCodepoints) as [-> _].
  destruct (WeightString_bin_data dst src2 numCodepoints) as [-> _].
  intros E. apply app_inv_head in E.
  destruct Hcase as [Hn|Hlen].
  - apply Z.eqb_neq in Hn. rewrite Hn, !app_nil_r in E. exact E.
  - apply (f_equal (firstn (length src1))) in E.
    rewrite firstn_app, firstn_all, Nat.sub_diag, firstn_O, app_nil_r in E.
    rewrite Hlen, firstn_app, firstn_all, Nat.sub_diag, firstn_O,
      app_nil_r in E.
    exact E.
Qed.

End Binary.

(** ** Slices stay within their capacity *)

Section SliceInvariant.
Context `{GoRuntimeLaws}.

Lemma append_ok (s : slice) (xs : list byte) :
  slice_ok s ->
  slice_ok (append s xs) /\ cap s <= cap (append s xs).
Proof.
  unfold slice_ok, append, len. intros Hs.
  destruct (_ <=? _) eqn:E; cbn [data cap]; rewrite length_app.
  - apply Z.leb_le in E. lia.
  - apply Z.leb_gt in E.
    pose proof (growslice_enough (cap s)
                  (Z.of_nat (length (data s)) + Z.of_nat (length xs))).
    lia.
Qed.

Lemma appendWeights_ok {St : Type} (next : St -> uint16 * bool * St)
      (fuel : nat) :
  forall (it : St) (dst d : slice) (it' : St),
  slice_ok dst ->
  appendWeights next fuel it dst = Some (d, it') ->
  slice_ok d /\ cap dst <= cap d.
Proof.
  induction fuel as [|fuel IH]; intros it dst d it' Hok E; [discriminate|].
  cbn [appendWeights] in E.
  destruct (next it) as [[w ok] it1].
  destruct ok; cbn [negb] in E.
  - destruct (append_ok dst [hi_byte w; lo_byte w] Hok) as [Hok1 Hcap1].
    destruct (IH _ _ _ _ Hok1 E) as [Hd Hcap]. split; [exact Hd | lia].
  - injection E as <- <-. split; [exact Hok | lia].
Qed.

Lemma emitChunks_ok {St : Type} `{WeightIterator St} `{FastIterator900 St}
      (fuel : nat) :
  (forall s : St, (length (fst (NextChunk s)) <= 16)%nat) ->
  forall (it : St) (dst d : slice) (it' : St),
  slice_ok dst ->
  Collation_utf8mb4_uca_0900.emitChunks fuel it dst = Some (d, it') ->
  slice_ok d /\ cap dst <= cap d.
Proof.
  intros Hchunk.
  induction fuel as [|fuel IH]; intros it dst d it' Hok E; [discriminate|].
  cbn [Collation_utf8mb4_uca_0900.emitChunks] in E.
  pose proof (Hchunk it) as H16.
  destruct (NextChunk it) as [chunk it1]. cbn [fst] in H16.
  destruct (cap dst - len dst >=? 16) eqn:Eroom;
    destruct (Z.of_nat (length chunk) <=? 0);
    try (injection E as <- <-; split; [exact Hok | lia]).
  - assert (Hok1 : slice_ok (reslice dst chunk)).
    { unfold slice_ok, reslice, len in *. cbn [data cap].
      rewrite length_app. apply Z.geb_le in Eroom. lia. }
    destruct (IH _ _ _ _ Hok1 E) as [Hd Hcap].
    split; [exact Hd | exact Hcap].
  - destruct (append_ok dst chunk Hok) as [Hok1 Hcap1].
    destruct (IH _ _ _ _ Hok1 E) as [Hd Hcap]. split; [exact Hd | lia].
Qed.

Lemma padZero_full (d : slice) :
  slice_ok d -> len (padZero d) = cap d /\ cap (padZero d) = cap d.
Proof.
  unfold slice_ok. intros Hok.
  assert (HL : len d = Z.of_nat (length (data d))) by reflexivity.
  rewrite padZero_spec. cbn [cap]. split; [|reflexivity].
  rewrite len_app, repeat_length. lia.
Qed.

Lemma padSpace_full (w1 w2 : byte) (d : slice) :
  slice_ok d ->
  len (padSpace w1 w2 d) = cap d /\ cap (padSpace w1 w2 d) = cap d.
Proof.
  unfold slice_ok. intros Hok.
  assert (HL : len d = Z.of_nat (length (data d))) by reflexivity.
  rewrite padSpace_spec. cbn [cap]. split; [|reflexivity].
  rewrite len_app, space_fill_length. lia.
Qed.

Lemma padCount_loop_ok (w1 w2 : byte) (n : nat) :
  forall (z : Z) (d : slice),
  slice_ok d ->
  slice_ok (padCount_loop n z w1 w2 d)
  /\ cap d <= cap (padCount_loop n z w1 w2 d).
Proof.
  induction n as [|n IH]; intros z d Hok; cbn [padCount_loop].
  - split; [exact Hok | lia].
  - destruct (0 <? z).
    + destruct (append_ok d [w1; w2] Hok) as [Hok1 Hcap1].
      destruct (IH (z - 1) _ Hok1) as [Hd Hcap]. split; [exact Hd | lia].
    + split; [exact Hok | lia].
Qed.

End SliceInvariant.

Section WeightStringInvariant.
Context `{GoRuntimeLaws} `{Constants}.

(** X4: [WeightString] of a 900 collation keeps the slice within its
    capacity and never returns a smaller capacity than it was given; with
    [PadToMax] the result is full, its length is its capacity.  For a
    runtime whose [append] reallocates to a sufficient capacity and an
    iterator whose chunks have 16 bytes at most. *)
Theorem WeightString_900_full {St : Type} `{WeightIterator St}
        `{FastIterator900 St} `{!WeightIteratorLaws St}
        `{!FastIterator900Laws St}
        (c : Collation_utf8mb4_uca_0900.t St)
        (fuel : nat) (dst : slice) (src : list byte) (numCodepoints : Z) :
  (forall s : St, (length (fst (NextChunk s)) <= 16)%nat) ->
  slice_ok dst ->
  (needed900 c src < fuel)%nat ->
  exists r,
    Collation_utf8mb4_uca_0900.WeightString c fuel dst src numCodepoints
    = Some r
    /\ slice_ok r
    /\ cap dst <= cap r
    /\ (numCodepoints = PadToMax -> len r = cap r).
Proof.
  intros Hchunk Hok Hfuel.
  assert (Hd : exists d,
             Collation_utf8mb4_uca_0900.WeightString
               c fuel dst src numCodepoints
             = Some (Collation_utf8mb4_uca_0900.performPadding
                       d numCodepoints)
             /\ slice_ok d /\ cap dst <= cap d).
  { unfold needed900 in Hfuel.
    unfold Collation_utf8mb4_uca_0900.WeightString. cbv zeta in *.
    destruct (isFastIterator900 _).
    - destruct (chunksOf_total NextChunk remainingChunks
                  NextChunk_remaining fuel _ Hfuel) as (bs & it' & Hbs).
      destruct (emitChunks_spec _ _ _ _ dst Hbs) as (d & Hemit & _).
      rewrite Hemit. exists d. split; [reflexivity|].
      exact (emitChunks_ok fuel Hchunk _ _ _ _ Hok Hemit).
    - destruct (weightsOf_total Next remaining Next_remaining fuel _ Hfuel)
        as (ws & it' & Hws).
      destruct (appendWeights_spec Next _ _ _ _ dst Hws) as (d & Hemit & _).
      unfold Collation_utf8mb4_uca_0900.emitWeights.
      rewrite Hemit. exists d. split; [reflexivity|].
      exact (appendWeights_ok Next fuel _ _ _ _ Hok Hemit). }
  destruct Hd as (d & Hr & Hdok & Hcap).
  eexists. split; [exact Hr|].
  unfold Collation_utf8mb4_uca_0900.performPadding.
  destruct (padZero_full d Hdok) as [Hfull Hsame].
  destruct (Z.eqb_spec numCodepoints PadToMax) as [E|E].
  - unfold slice_ok. rewrite Hfull, Hsame.
    split; [lia|]. split; [exact Hcap | reflexivity].
  - split; [exact Hdok|]. split; [exact Hcap | contradiction].
Qed.

(** X5: the same for a legacy collation, whatever the count. *)
Theorem WeightString_legacy_full {St : Type} `{WeightIteratorLegacy St}
        `{!WeightIteratorLegacyLaws St}
        (c : Collation_uca_legacy.t St)
        (fuel : nat) (dst : slice) (src : list byte) (numCodepoints : Z) :
  slice_ok dst ->
  (neededLegacy c src < fuel)%nat ->
  exists r,
    Collation_uca_legacy.WeightString c fuel dst src numCodepoints = Some r
    /\ slice_ok r
    /\ cap dst <= cap r
    /\ (numCodepoints = PadToMax -> 0 < PadToMax -> len r = cap r).
Proof.
  intros Hok Hfuel.
  destruct (weightsLegacy_total c _ _ Hfuel) as (ws & it & Hws).
  destruct (appendWeights_spec NextLegacy _ _ _ _ dst Hws)
    as (d & Hemit & _).
  destruct (appendWeights_ok NextLegacy fuel _ _ _ _ Hok Hemit)
    as [Hdok Hcap].
  unfold Collation_uca_legacy.WeightString,
    Collation_uca_legacy.emitWeights.
  rewrite Hemit. eexists. split; [reflexivity|].
  unfold Collation_uca_legacy.pad. cbv zeta.
  destruct (Z.ltb_spec 0 numCodepoints) as [Hpos|Hneg].
  - destruct (Z.eqb_spec numCodepoints PadToMax) as [E|E].
    + destruct (padSpace_full
                  (hi_byte (WeightForSpace (Collation_uca_legacy.uca c)))
                  (lo_byte (WeightForSpace (Collation_uca_legacy.uca c)))
                  d Hdok) as [Hfull Hsame].
      unfold slice_ok. rewrite Hfull, Hsame.
      split; [lia|]. split; [exact Hcap | reflexivity].
    + unfold padCount.
      destruct (padCount_loop_ok
                  (hi_byte (WeightForSpace (Collation_uca_legacy.uca c)))
                  (lo_byte (WeightForSpace (Collation_uca_legacy.uca c)))
                  (Z.to_nat (int_sub numCodepoints (Length it)))
                  (int_sub numCodepoints (Length it)) d Hdok)
        as [Hrok Hrcap].
      split; [exact Hrok|]. split; [lia | contradiction].
  - split; [exact Hdok|]. split; [exact Hcap|].
    intros -> Hp. lia.
Qed.

End WeightStringInvariant.

(** ** More on Collate of the 900 collations *)

Lemma normalizecmp_sgn (res : Z) : normalizecmp res = Z.sgn res.
Proof.
  unfold normalizecmp.
  destruct (Z.ltb_spec res 0); [destruct res; cbn; lia|].
  rewrite Z.gtb_ltb.
  destruct (Z.ltb_spec 0 res); destruct res; cbn; lia.
Qed.

Section MoreCollate900.
Context {St : Type} `{WeightIterator St} `{!WeightIteratorLaws St}.
Variable c : Collation_utf8mb4_uca_0900.t St.

Lemma Collate_from_same (fuel : nat) :
  forall (level : Z) (it : St) (rightIsPrefix : bool),
  (remaining it < fuel)%nat ->
  value (Collation_utf8mb4_uca_0900.Collate_from
           c fuel level it it rightIsPrefix) = Some 0.
Proof.
  induction fuel as [|fuel IH]; intros level it p Hlt; [lia|].
  cbn [Collation_utf8mb4_uca_0900.Collate_from].
  destruct (Next it) as [[l lok] it1] eqn:E.
  assert (Hrec : lok = true -> (remaining it1 < fuel)%nat).
  { intros ->. apply Next_remaining in E. lia. }
  rewrite !Z.eqb_refl, Z.sub_diag. cbn [negb orb andb].
  destruct lok; cbn [negb orb andb].
  - destruct (Level it1 =? level); cbn [negb orb].
    + apply IH. auto.
    + destruct (level + 1 <? _); [apply IH; auto | reflexivity].
  - reflexivity.
Qed.

(** X6: a string compares equal to itself: [Collate(a, a, rightIsPrefix)]
    returns 0, with and without prefix matching. *)
Theorem Collate_900_reflexive (fuel : nat) (a : list byte)
        (rightIsPrefix : bool) :
  (remaining (Iterator (Collation_utf8mb4_uca_0900.uca c) a) < fuel)%nat ->
  value (Collation_utf8mb4_uca_0900.Collate c fuel a a rightIsPrefix)
  = Some 0.
Proof.
  intros Hfuel. unfold Collation_utf8mb4_uca_0900.Collate.
  apply Collate_from_same. exact Hfuel.
Qed.

(** X7: what the comparison test makes of [Collate]: the results of
    [normalizecmp] for [Collate(a, b, false)] and for [Collate(b, a, false)]
    are among -1, 0 and 1 and opposite. *)
Theorem normalizecmp_Collate_antisymmetric (fuel : nat) (a b : list byte) :
  (forall src,
      Level (Iterator (Collation_utf8mb4_uca_0900.uca c) src) = 0) ->
  (remaining (Iterator (Collation_utf8mb4_uca_0900.uca c) a) < fuel)%nat ->
  exists x y,
    value (Collation_utf8mb4_uca_0900.Collate c fuel a b false) = Some x
    /\ value (Collation_utf8mb4_uca_0900.Collate c fuel b a false) = Some y
    /\ normalizecmp x = - normalizecmp y
    /\ (normalizecmp x = -1 \/ normalizecmp x = 0 \/ normalizecmp x = 1).
Proof.
  intros Hinit Hfuel.
  destruct (Collate_from_antisymmetric c fuel 0 _ _ (Hinit a) (Hinit b) Hfuel)
    as (x & y & Hx & Hy & Hs).
  exists x, y. split; [exact Hx|]. split; [exact Hy|].
  rewrite !normalizecmp_sgn. split; [exact Hs|].
  destruct x; cbn; auto.
Qed.

End MoreCollate900.

(** ** More on Collate of the legacy collations *)

Lemma weight_bytes_injective (xs : list uint16) :
  forall ys : list uint16,
  Forall (fun w => 0 <= w < 65536) xs ->
  Forall (fun w => 0 <= w < 65536) ys ->
  weight_bytes xs = weight_bytes ys -> xs = ys.
Proof.
  induction xs as [|x xs IH]; intros [|y ys] Hx Hy E;
    cbn [weight_bytes flat_map app] in E; try discriminate; [reflexivity|].
  injection E as Ehi Elo E.
  inversion Hx as [|? ? Hx0 Hxs]; inversion Hy as [|? ? Hy0 Hys]; subst.
  f_equal.
  - rewrite (hi_lo_byte x Hx0), (hi_lo_byte y Hy0). congruence.
  - apply IH; assumption.
Qed.

Lemma weights_diff_zero (xs : list uint16) :
  forall ys : list uint16,
  Forall (fun w => 0 < w) xs ->
  Forall (fun w => 0 < w) ys ->
  weights_diff false xs ys = 0 <-> xs = ys.
Proof.
  induction xs as [|x xs IH]; intros [|y ys] Hx Hy; cbn [weights_diff].
  - tauto.
  - inversion Hy; subst. split; [lia | discriminate].
  - inversion Hx; subst. split; [lia | discriminate].
  - inversion Hx; inversion Hy; subst.
    destruct (Z.eqb_spec x y) as [->|Hne].
    + rewrite IH by assumption. split; congruence.
    + split; [lia | congruence].
Qed.

Section MoreCollateLegacy.
Context {St : Type} `{WeightIteratorLegacy St}.
Context `{!WeightIteratorLegacyLaws St}.
Context `{GoRuntime} `{Constants}.
Variable c : Collation_uca_legacy.t St.

Lemma Collate_loop_same (fuel : nat) :
  forall (it : St) (isPrefix : bool),
  (remainingLegacy it < fuel)%nat ->
  Collation_uca_legacy.Collate_loop fuel it it isPrefix = Some 0.
Proof.
  induction fuel as [|fuel IH]; intros it p Hlt; [lia|].
  cbn [Collation_uca_legacy.Collate_loop].
  destruct (NextLegacy it) as [[l lok] it1] eqn:E.
  rewrite Z.eqb_refl, Z.sub_diag.
  destruct lok; cbn [negb andb].
  - apply IH. apply NextLegacy_remaining in E. lia.
  - destruct p; reflexivity.
Qed.

(** X8: a string compares equal to itself under a legacy collation, with
    and without prefix matching. *)
Theorem Collate_legacy_reflexive (fuel : nat) (a : list byte)
        (isPrefix : bool) :
  (neededLegacy c a < fuel)%nat ->
  Collation_uca_legacy.Collate c fuel a a isPrefix = Some 0.
Proof.
  intros Hfuel. unfold Collation_uca_legacy.Collate.
  apply Collate_loop_same. exact Hfuel.
Qed.

Lemma Collate_loop_antisymmetric (fuel : nat) :
  forall l r : St,
  (remainingLegacy l < fuel)%nat ->
  exists x,
    Collation_uca_legacy.Collate_loop fuel l r false = Some x
    /\ Collation_uca_legacy.Collate_loop fuel r l false = Some (- x).
Proof.
  induction fuel as [|fuel IH]; intros l r Hlt; [lia|].
  cbn [Collation_uca_legacy.Collate_loop].
  destruct (NextLegacy l) as [[x lok] l1] eqn:EL.
  destruct (NextLegacy r) as [[y rok] r1] eqn:ER.
  rewrite (Z.eqb_sym y x), !andb_false_r.
  destruct (Z.eqb_spec x y) as [E|E]; destruct lok, rok; cbn [andb];
    try (apply IH; apply NextLegacy_remaining in EL; lia);
    (eexists; split; [reflexivity | f_equal; lia]).
Qed.

(** X9: without prefix matching the legacy [Collate] is antisymmetric in
    value, not only in sign: [Collate(b, a, false)] is
    [-Collate(a, b, false)]. *)
Theorem Collate_legacy_antisymmetric (fuel : nat) (a b : list byte) :
  (neededLegacy c a < fuel)%nat ->
  exists x,
    Collation_uca_legacy.Collate c fuel a b false = Some x
    /\ Collation_uca_legacy.Collate c fuel b a false = Some (- x).
Proof.
  intros Hfuel. unfold Collation_uca_legacy.Collate.
  apply Collate_loop_antisymmetric. exact Hfuel.
Qed.

Lemma Collate_loop_prefix (fuel : nat) :
  forall l r : St,
  (remainingLegacy l < fuel)%nat ->
  exists x y,
    Collation_uca_legacy.Collate_loop fuel l r false = Some x
    /\ Collation_uca_legacy.Collate_loop fuel l r true = Some y
    /\ (y = x \/ y = 0) /\ (x = 0 -> y = 0).
Proof.
  induction fuel as [|fuel IH]; intros l r Hlt; [lia|].
  cbn [Collation_uca_legacy.Collate_loop].
  destruct (NextLegacy l) as [[x lok] l1] eqn:EL.
  destruct (NextLegacy r) as [[y rok] r1] eqn:ER.
  rewrite !andb_false_r, !andb_true_r.
  destruct (Z.eqb_spec x y) as [E|E]; destruct lok, rok; cbn [andb negb];
    try (apply IH; apply NextLegacy_remaining in EL; lia);
    (do 2 eexists; split; [reflexivity|]; split; [reflexivity|]; lia).
Qed.

(** X10: prefix matching only ever turns a result into 0: the legacy
    [Collate(a, b, true)] is [Collate(a, b, false)] or 0, and it is 0
    whenever [Collate(a, b, false)] is. *)
Theorem Collate_legacy_prefix_or_plain (fuel : nat) (a b : list byte) :
  (neededLegacy c a < fuel)%nat ->
  exists x y,
    Collation_uca_legacy.Collate c fuel a b false = Some x
    /\ Collation_uca_legacy.Collate c fuel a b true = Some y
    /\ (y = x \/ y = 0) /\ (x = 0 -> y = 0).
Proof.
  intros Hfuel. unfold Collation_uca_legacy.Collate.
  apply Collate_loop_prefix. exact Hfuel.
Qed.

Lemma Collate_loop_weights (fuel : nat) :
  (forall s w s', NextLegacy s = (w, false, s') -> w = 0) ->
  forall (l r : St) wl wr l' r' (isPrefix : bool),
  weightsOf NextLegacy fuel l = Some (wl, l') ->
  weightsOf NextLegacy fuel r = Some (wr, r') ->
  Collation_uca_legacy.Collate_loop fuel l r isPrefix =
  Some (weights_diff isPrefix wl wr).
Proof.
  intros Hend.
  induction fuel as [|fuel IH]; intros l r wl wr l' r' p EL ER;
    [discriminate|].
  cbn [weightsOf Collation_uca_legacy.Collate_loop] in *.
  destruct (NextLegacy l) as [[x lok] l1] eqn:NL.
  destruct (NextLegacy r) as [[y rok] r1] eqn:NR.
  destruct lok, rok; cbn [negb andb] in *.
  - destruct (weightsOf NextLegacy fuel l1) as [[wl1 l2]|] eqn:EL1;
      [|discriminate].
    destruct (weightsOf NextLegacy fuel r1) as [[wr1 r2]|] eqn:ER1;
      [|discriminate].
    injection EL as <- <-. injection ER as <- <-.
    cbn [weights_diff]. rewrite !andb_true_r.
    destruct (x =? y); [eapply IH; eauto | reflexivity].
  - destruct (weightsOf NextLegacy fuel l1) as [[wl1 l2]|] eqn:EL1;
      [|discriminate].
    injection EL as <- <-. injection ER as <- <-.
    apply Hend in NR. subst y.
    cbn [weights_diff]. rewrite andb_false_r. destruct p; reflexivity.
  - destruct (weightsOf NextLegacy fuel r1) as [[wr1 r2]|] eqn:ER1;
      [|discriminate].
    injection EL as <- <-. injection ER as <- <-.
    apply Hend in NL. subst x.
    cbn [weights_diff]. rewrite andb_false_r. reflexivity.
  - injection EL as <- <-. injection ER as <- <-.
    apply Hend in NL. apply Hend in NR. subst x y.
    cbn [weights_diff]. rewrite andb_false_r. destruct p; reflexivity.
Qed.

(** X11: the legacy [Collate] depends on its operands through their
    weight sequences only, and is the difference of the weights at the
    first place where the sequences differ, a sequence that has ended
    counting as 0 there (and, with [isPrefix], 0 when the right one has
    ended); for an iterator whose [Next] yields 0 when it fails. *)
Theorem Collate_legacy_weights (fuel : nat) (a b : list byte)
        (isPrefix : bool) :
  (forall s w s', NextLegacy s = (w, false, s') -> w = 0) ->
  (neededLegacy c a < fuel)%nat ->
  (neededLegacy c b < fuel)%nat ->
  exists wa ita wb itb,
    weightsLegacy c fuel a = Some (wa, ita)
    /\ weightsLegacy c fuel b = Some (wb, itb)
    /\ Collation_uca_legacy.Collate c fuel a b isPrefix =
       Some (weights_diff isPrefix wa wb).
Proof.
  intros Hend Ha Hb.
  destruct (weightsLegacy_total c _ _ Ha) as (wa & ita & Hwa).
  destruct (weightsLegacy_total c _ _ Hb) as (wb & itb & Hwb).
  exists wa, ita, wb, itb. split; [exact Hwa|]. split; [exact Hwb|].
  unfold Collation_uca_legacy.Collate.
  exact (Collate_loop_weights fuel Hend _ _ _ _ _ _ isPrefix Hwa Hwb).
Qed.

(** X12: two strings compare equal under a legacy collation exactly when
    they have the same weight string: [Collate(a, b, false)] is 0 if and
    only if [WeightString(dst, a, n)] and [WeightString(dst, b, n)] hold
    the same bytes, for a count [n <= 0], which asks for no padding; for
    operands whose weights are non-zero 16-bit values and an iterator
    whose [Next] yields 0 when it fails. *)
Theorem Collate_legacy_zero_iff_same_key (fuel : nat) (dst : slice)
        (a b : list byte) (numCodepoints : Z)
        (wa wb : list uint16) (ita itb : St) :
  (forall s w s', NextLegacy s = (w, false, s') -> w = 0) ->
  weightsLegacy c fuel a = Some (wa, ita) ->
  weightsLegacy c fuel b = Some (wb, itb) ->
  Forall (fun w => 0 < w < 65536) wa ->
  Forall (fun w => 0 < w < 65536) wb ->
  numCodepoints <= 0 ->
  exists x ra rb,
    Collation_uca_legacy.Collate c fuel a b false = Some x
    /\ Collation_uca_legacy.WeightString c fuel dst a numCodepoints = Some ra
    /\ Collation_uca_legacy.WeightString c fuel dst b numCodepoints = Some rb
    /\ (x = 0 <-> data ra = data rb).
Proof.
  intros Hend Hwa Hwb Fa Fb Hn.
  destruct (WeightStringLegacy_emitted c fuel dst a numCodepoints _ _ Hwa)
    as (da & Hra & Hda & _).
  destruct (WeightStringLegacy_emitted c fuel dst b numCodepoints _ _ Hwb)
    as (db & Hrb & Hdb & _).
  assert (Hpad : forall it d,
             Collation_uca_legacy.pad c it d numCodepoints = d).
  { intros it d. unfold Collation_uca_legacy.pad.
    destruct (Z.ltb_spec 0 numCodepoints); [lia | reflexivity]. }
  rewrite Hpad in Hra, Hrb.
  exists (weights_diff false wa wb), da, db.
  split.
  { unfold Collation_uca_legacy.Collate.
    exact (Collate_loop_weights fuel Hend _ _ _ _ _ _ false Hwa Hwb). }
  split; [exact Hra|]. split; [exact Hrb|].
  rewrite weights_diff_zero, Hda, Hdb
    by (eapply Forall_impl; [|eassumption]; cbv beta; intros; lia).
  split.
  - intros ->. reflexivity.
  - intros E. apply app_inv_head in E.
    apply weight_bytes_injective in E; [exact E | |];
      (eapply Forall_impl; [|eassumption]; cbv beta; intros; lia).
Qed.

End MoreCollateLegacy.

(** ** Counts that ask for no padding *)

Section NoPadding.
Context {StM : Type} `{WeightIterator StM} `{FastIterator900 StM}.
Context `{!WeightIteratorLaws StM} `{!FastIterator900Laws StM}.
Context {StL : Type} `{WeightIteratorLegacy StL}.
Context `{!WeightIteratorLegacyLaws StL}.
Context `{GoRuntime} `{Constants}.
Variable modern : Collation_utf8mb4_uca_0900.t StM.
Variable legacy : Collation_uca_legacy.t StL.

(** X13: with a count of 0 or below, as the tests pass it, [WeightString]
    of either collation returns the bytes of [dst] and the weight bytes
    of [src] and nothing else, in the capacity of [dst] when they fit. *)
Theorem WeightString_without_count (fuel : nat) (dst : slice)
        (src : list byte) (numCodepoints : Z) :
  0 < PadToMax ->
  numCodepoints <= 0 ->
  (needed900 modern src < fuel)%nat ->
  (neededLegacy legacy src < fuel)%nat ->
  (exists bs r,
      weightBytes900 modern fuel src = Some bs
      /\ Collation_utf8mb4_uca_0900.WeightString modern fuel dst src
           numCodepoints = Some r
      /\ data r = data dst ++ bs
      /\ (len dst + Z.of_nat (length bs) <= cap dst -> cap r = cap dst))
  /\ (exists ws it r,
         weightsLegacy legacy fuel src = Some (ws, it)
         /\ Collation_uca_legacy.WeightString legacy fuel dst src
              numCodepoints = Some r
         /\ data r = data dst ++ weight_bytes ws
         /\ (len dst + Z.of_nat (length (weight_bytes ws)) <= cap dst ->
             cap r = cap dst)).
Proof.
  intros Hpos Hn Hm Hl. split.
  - destruct (weightBytes900_total modern _ _ Hm) as (bs & Hbs).
    destruct (WeightString900_emitted modern fuel dst src numCodepoints bs Hbs)
      as (d & Hr & Hd).
    exists bs, d. split; [exact Hbs|].
    unfold Collation_utf8mb4_uca_0900.performPadding in Hr.
    destruct (Z.eqb_spec numCodepoints PadToMax); [lia|].
    split; [exact Hr | exact Hd].
  - destruct (weightsLegacy_total legacy _ _ Hl) as (ws & it & Hws).
    destruct (WeightStringLegacy_emitted legacy fuel dst src numCodepoints
                ws it Hws) as (d & Hr & Hd).
    exists ws, it, d. split; [exact Hws|].
    unfold Collation_uca_legacy.pad in Hr.
    destruct (Z.ltb_spec 0 numCodepoints); [lia|].
    split; [exact Hr | exact Hd].
Qed.

End NoPadding.

(** ** WeightStringLen grows with the length *)

Section WeightStringLenOrder.
Context {St : Type} `{Constants}.
Variable c : Collation_utf8mb4_uca_0900.t St.

(** X14: for a collation with at least one level, [WeightStringLen] of a
    900 collation is not negative and grows with the length, as long as
    the larger value is within the range of [int]. *)
Theorem WeightStringLen_monotone (n m : Z) :
  0 <= MaxCollationElementsPerCodepoint ->
  1 <= Collation_utf8mb4_uca_0900.levelsForCompare c ->
  (4 | n) -> (4 | m) -> 0 <= n <= m ->
  2 * (m / 4 * MaxCollationElementsPerCodepoint
       * Collation_utf8mb4_uca_0900.levelsForCompare c)
  + 2 * (Collation_utf8mb4_uca_0900.levelsForCompare c - 1) < 2 ^ 63 ->
  exists x y,
    Collation_utf8mb4_uca_0900.WeightStringLen c n = Ok x
    /\ Collation_utf8mb4_uca_0900.WeightStringLen c m = Ok y
    /\ 0 <= x <= y.
Proof.
  intros HM HL Hn Hm Hle Hrange.
  set (M := MaxCollationElementsPerCodepoint) in *.
  set (L := Collation_utf8mb4_uca_0900.levelsForCompare c) in *.
  assert (Hq : 0 <= n / 4 <= m / 4).
  { split; [apply Z.div_pos; lia | apply Z.div_le_mono; lia]. }
  assert (H1 : 0 <= n / 4 * M <= m / 4 * M) by nia.
  assert (H2 : 0 <= n / 4 * M * L <= m / 4 * M * L) by nia.
  assert (Qn : Z.quot n 4 = n / 4) by (apply Z.quot_div_nonneg; lia).
  assert (Qm : Z.quot m 4 = m / 4) by (apply Z.quot_div_nonneg; lia).
  apply rem4_divide in Hn, Hm.
  rewrite (WeightStringLen_wrap c n Hn), (WeightStringLen_wrap c m Hm).
  fold M L. rewrite Qn, Qm.
  rewrite !int_wrap_small by lia.
  do 2 eexists. split; [reflexivity|]. split; [reflexivity|]. lia.
Qed.

End WeightStringLenOrder.

(** ** init *)

Section Init.
Variables WeightTable WeightPatch Contraction Reorder Charset St : Type.
Variable NewCollation :
  string -> option WeightTable -> list WeightPatch -> list Reorder ->
  list Contraction -> bool -> Z -> uca.Collation900 St.
Variable NewCollationLegacy :
  Charset -> option WeightTable -> list WeightPatch -> list Contraction ->
  Z -> uca.CollationLegacy St.

Lemma init_900_iter (c : Fields900.t WeightTable WeightPatch Contraction
                                     Reorder St) (n : nat) :
  Nat.iter n (Fields900.init NewCollation) (Fields900.init NewCollation c)
  = Fields900.init NewCollation c.
Proof.
  induction n as [|n IH]; [reflexivity|].
  rewrite Nat.iter_succ, IH.
  unfold Fields900.init. destruct (Fields900.ucainit c) eqn:E.
  - rewrite E. reflexivity.
  - reflexivity.
Qed.

Lemma init_legacy_iter (c : FieldsLegacy.t Charset WeightTable WeightPatch
                                          Contraction St) (n : nat) :
  Nat.iter n (FieldsLegacy.init NewCollationLegacy)
           (FieldsLegacy.init NewCollationLegacy c)
  = FieldsLegacy.init NewCollationLegacy c.
Proof.
  induction n as [|n IH]; [reflexivity|].
  rewrite Nat.iter_succ, IH.
  unfold FieldsLegacy.init. destruct (FieldsLegacy.ucainit c) eqn:E.
  - rewrite E. reflexivity.
  - reflexivity.
Qed.

(** X15: [init] of a 900 collation builds [c.uca] once: the first call
    builds it from the tables of the struct and clears them; any number of
    further calls change nothing, so that [c.uca] is never built again from
    the cleared tables.  Name, id and the number of levels stay. *)
Theorem init_900_once (c : Fields900.t WeightTable WeightPatch Contraction
                                       Reorder St) (n : nat) :
  Fields900.ucainit c = false ->
  let c1 := Fields900.init NewCollation c in
  let cn := Nat.iter n (Fields900.init NewCollation) c1 in
  cn = c1
  /\ Fields900.uca cn =
     Some (NewCollation (Fields900.name c) (Fields900.weights c)
             (Fields900.tailoring c) (Fields900.reorder c)
             (Fields900.contractions c) (Fields900.upperCaseFirst c)
             (Fields900.levelsForCompare c))
  /\ Fields900.weights cn = None
  /\ Fields900.tailoring cn = []
  /\ Fields900.contractions cn = []
  /\ Fields900.reorder cn = []
  /\ Fields900.Name cn = Fields900.Name c
  /\ Fields900.ID cn = Fields900.ID c
  /\ option_map Collation_utf8mb4_uca_0900.levelsForCompare
       (Fields900.methods cn) = Some (Fields900.levelsForCompare c).
Proof.
  intros Hfresh c1 cn.
  assert (Hcn : cn = c1) by apply init_900_iter.
  rewrite Hcn. subst c1. unfold Fields900.init. rewrite Hfresh.
  repeat split.
Qed.

(** X16: the same for [init] of a legacy collation. *)
Theorem init_legacy_once (c : FieldsLegacy.t Charset WeightTable WeightPatch
                                            Contraction St) (n : nat) :
  FieldsLegacy.ucainit c = false ->
  let c1 := FieldsLegacy.init NewCollationLegacy c in
  let cn := Nat.iter n (FieldsLegacy.init NewCollationLegacy) c1 in
  cn = c1
  /\ FieldsLegacy.uca cn =
     Some (NewCollationLegacy (FieldsLegacy.charset c)
             (FieldsLegacy.weights c) (FieldsLegacy.tailoring c)
             (FieldsLegacy.contractions c) (FieldsLegacy.maxCodepoint c))
  /\ FieldsLegacy.weights cn = None
  /\ FieldsLegacy.tailoring cn = []
  /\ FieldsLegacy.contractions cn = []
  /\ FieldsLegacy.Name cn = FieldsLegacy.Name c
  /\ FieldsLegacy.ID cn = FieldsLegacy.ID c.
Proof.
  intros Hfresh c1 cn.
  assert (Hcn : cn = c1) by apply init_legacy_iter.
  rewrite Hcn. subst c1. unfold FieldsLegacy.init. rewrite Hfresh.
  repeat split.
Qed.

End Init.

(** ** Levels and order *)

Section Levels900.
Context {St : Type} `{WeightIterator St}.
Variable c : Collation_utf8mb4_uca_0900.t St.

Lemma Collate_from_lockstep_at (level : Z) (k : nat) (l r l' r' : St) :
  lockstep_at level k l r l' r' ->
  forall (fuel : nat) (rightIsPrefix : bool),
  Collation_utf8mb4_uca_0900.Collate_from c (k + fuel) level l r rightIsPrefix
  = Collation_utf8mb4_uca_0900.Collate_from c fuel level l' r' rightIsPrefix.
Proof.
  induction 1 as [|k l r w l1 r1 l' r' EL ER HL HR _ IH]; intros fuel p.
  - reflexivity.
  - cbn [Nat.add Collation_utf8mb4_uca_0900.Collate_from].
    rewrite EL, ER, HL, HR, !Z.eqb_refl. cbn [negb orb]. apply IH.
Qed.

(** X17: two operands that agree on all the weights of a level and end it
    together, with the same weight and at the same level: [Collate]
    returns 0 when the iterators are exhausted or the level was the last
    of [levelsForCompare], and goes on with the next level otherwise;
    levels beyond [levelsForCompare] are not compared. *)
Theorem Collate_900_level_end (fuel k : nat) (level : Z)
        (itleft0 itright0 itleft itright : St) (w : uint16) (ok : bool)
        (itleft1 itright1 : St) (rightIsPrefix : bool) :
  lockstep_at level k itleft0 itright0 itleft itright ->
  Next itleft = (w, ok, itleft1) ->
  Next itright = (w, ok, itright1) ->
  Level itleft1 = Level itright1 ->
  ok = false \/ Level itleft1 <> level ->
  (ok = false \/ Collation_utf8mb4_uca_0900.levelsForCompare c <= level + 1 ->
   Collation_utf8mb4_uca_0900.Collate_from
     c (k + S fuel) level itleft0 itright0 rightIsPrefix
   = Some (0, itleft1, itright1))
  /\ (ok = true ->
      level + 1 < Collation_utf8mb4_uca_0900.levelsForCompare c ->
      Collation_utf8mb4_uca_0900.Collate_from
        c (k + S fuel) level itleft0 itright0 rightIsPrefix
      = Collation_utf8mb4_uca_0900.Collate_from
          c fuel (level + 1) itleft1 itright1 rightIsPrefix).
Proof.
  intros Hk EL ER Hlev Hend.
  rewrite (Collate_from_lockstep_at _ _ _ _ _ _ Hk).
  cbn [Collation_utf8mb4_uca_0900.Collate_from].
  rewrite EL, ER, Hlev, !Z.eqb_refl, Z.sub_diag.
  cbn [negb orb andb].
  assert (Hbreak : negb ok || negb ok
                   || (negb (Level itright1 =? level)
                       || negb (Level itright1 =? level)) = true).
  { destruct Hend as [->|Hne]; [reflexivity|].
    rewrite Hlev in Hne. apply Z.eqb_neq in Hne. rewrite Hne.
    cbn [negb orb]. apply orb_true_r. }
  rewrite Hbreak. split.
  - intros [->|Hlast]; [reflexivity|].
    destruct ok; [|reflexivity].
    destruct (Z.ltb_spec (level + 1)
                (Collation_utf8mb4_uca_0900.levelsForCompare c));
      [lia | reflexivity].
  - intros -> Hmore.
    destruct (Z.ltb_spec (level + 1)
                (Collation_utf8mb4_uca_0900.levelsForCompare c));
      [reflexivity | lia].
Qed.

End Levels900.

Lemma weights_diff_transitive (xs : list uint16) :
  forall ys zs : list uint16,
  Forall (fun w => 0 < w) xs ->
  Forall (fun w => 0 < w) ys ->
  Forall (fun w => 0 < w) zs ->
  weights_diff false xs ys <= 0 ->
  weights_diff false ys zs <= 0 ->
  weights_diff false xs zs <= 0.
Proof.
  induction xs as [|x xs IH]; intros ys zs Hx Hy Hz.
  - destruct zs as [|z zs]; cbn [weights_diff]; [lia|].
    inversion Hz; subst. lia.
  - destruct ys as [|y ys]; cbn [weights_diff].
    + inversion Hx; subst. lia.
    + destruct zs as [|z zs]; cbn [weights_diff].
      * inversion Hy; subst. intros _ ?. lia.
      * inversion Hx; inversion Hy; inversion Hz; subst.
        destruct (Z.eqb_spec x y) as [Exy|Hxy];
          destruct (Z.eqb_spec y z) as [Eyz|Hyz];
          destruct (Z.eqb_spec x z) as [Exz|Hxz];
          try lia.
        apply IH; assumption.
Qed.

Section OrderLegacy.
Context {St : Type} `{WeightIteratorLegacy St}.
Variable c : Collation_uca_legacy.t St.

(** X18: the legacy [Collate] orders consistently: when [a] does not come
    after [b] and [b] does not come after [d], then [a] does not come after
    [d]; for operands whose weights are not zero and an iterator whose
    [Next] yields 0 when it fails. *)
Theorem Collate_legacy_transitive (fuel : nat) (a b d : list byte)
        (wa wb wd : list uint16) (ita itb itd : St) (x y : Z) :
  (forall s w s', NextLegacy s = (w, false, s') -> w = 0) ->
  weightsLegacy c fuel a = Some (wa, ita) ->
  weightsLegacy c fuel b = Some (wb, itb) ->
  weightsLegacy c fuel d = Some (wd, itd) ->
  Forall (fun w => 0 < w) wa ->
  Forall (fun w => 0 < w) wb ->
  Forall (fun w => 0 < w) wd ->
  Collation_uca_legacy.Collate c fuel a b false = Some x -> x <= 0 ->
  Collation_uca_legacy.Collate c fuel b d false = Some y -> y <= 0 ->
  exists z,
    Collation_uca_legacy.Collate c fuel a d false = Some z /\ z <= 0.
Proof.
  intros Hend Ha Hb Hd Fa Fb Fd Hx Hx0 Hy Hy0.
  unfold Collation_uca_legacy.Collate in *. unfold weightsLegacy in *.
  rewrite (Collate_loop_weights fuel Hend _ _ _ _ _ _ false Ha Hb) in Hx.
  rewrite (Collate_loop_weights fuel Hend _ _ _ _ _ _ false Hb Hd) in Hy.
  rewrite (Collate_loop_weights fuel Hend _ _ _ _ _ _ false Ha Hd).
  injection Hx as <-. injection Hy as <-.
  eexists. split; [reflexivity|].
  exact (weights_diff_transitive wa wb wd Fa Fb Fd Hx0 Hy0).
Qed.

End OrderLegacy.

(** ** The further properties on the table-driven collations *)

Section MoreModelFacts.
Import Model.

#[export] Instance doubling_laws : GoRuntimeLaws.
Proof.
  constructor. intros old need. cbn [growslice doubling]. lia.
Qed.

Lemma nextChunk900_length (n : nat) :
  forall s : iterator900, (length (fst (nextChunk900 n s)) <= 2 * n)%nat.
Proof.
  induction n as [|n IH]; intros s; cbn [nextChunk900].
  - cbn. lia.
  - destruct (next900 s) as [[w ok] s1].
    destruct ok; cbn [negb]; [|cbn; lia].
    specialize (IH s1). destruct (nextChunk900 n s1) as [bs s2].
    cbn [fst length] in *. lia.
Qed.

Lemma NextChunk900_length (s : iterator900) :
  (length (fst (NextChunk s)) <= 16)%nat.
Proof. exact (nextChunk900_length 8 s). Qed.

Lemma nextCodepoint_end (cps : list (list uint16)) :
  forall (n : Z) (w : uint16) (s' : iteratorLegacy),
  nextCodepoint cps n = (w, false, s') -> w = 0.
Proof.
  induction cps as [|[|x xs] more IH]; intros n w s'; cbn [nextCodepoint].
  - now intros [= <- _].
  - apply IH.
  - discriminate.
Qed.

Lemma NextLegacy_end (s : iteratorLegacy) (w : uint16) (s' : iteratorLegacy) :
  NextLegacy s = (w, false, s') -> w = 0.
Proof.
  cbn [NextLegacy iteratorLegacy_WeightIteratorLegacy]. unfold nextLegacy.
  destruct (current s); [apply nextCodepoint_end | discriminate].
Qed.

End MoreModelFacts.

Section MoreExamples.
Import Model.

Lemma WeightString_bin_bytes_witness :
  let dst := mkSlice [1] 8 in
  let r := Collation_utf8mb4_0900_bin.WeightString dst [97; 98] PadToMax in
  len dst + Z.of_nat (length [97; 98]) <= cap dst
  /\ data r =
     data dst ++ [97; 98]
     ++ (if PadToMax =? PadToMax
         then repeat 0x00
                (Z.to_nat (cap r - (len dst + Z.of_nat (length [97; 98]))))
         else [])
  /\ cap r = cap dst
  /\ len r = cap dst.
Proof.
  intros dst r.
  assert (H1 : len dst + Z.of_nat (length [97; 98]) <= cap dst)
    by (vm_compute; discriminate).
  destruct (WeightString_bin_bytes dst [97; 98] PadToMax) as [Hdata Hfit].
  destruct (Hfit H1) as [Hcap Hlen].
  exact (conj H1 (conj Hdata (conj Hcap (Hlen eq_refl)))).
Defined.

Lemma WeightString_bin_injective_witness :
  (0 <> PadToMax \/ length [97; 98] = length [97; 98])
  /\ data (Collation_utf8mb4_0900_bin.WeightString nil_slice [97; 98] 0) =
     data (Collation_utf8mb4_0900_bin.WeightString nil_slice [97; 98] 0)
  /\ [97; 98] = [97; 98].
Proof.
  assert (H1 : 0 <> PadToMax \/ length [97; 98] = length [97; 98])
    by (right; reflexivity).
  assert (H2 : data (Collation_utf8mb4_0900_bin.WeightString
                       nil_slice [97; 98] 0) =
               data (Collation_utf8mb4_0900_bin.WeightString
                       nil_slice [97; 98] 0)) by reflexivity.
  exact (conj H1 (conj H2
           (WeightString_bin_injective nil_slice [97; 98] [97; 98] 0 H1 H2))).
Defined.

Lemma WeightString_900_full_witness :
  (forall s : iterator900, (length (fst (NextChunk s)) <= 16)%nat)
  /\ slice_ok nil_slice
  /\ (needed900 ai_ci [97%Z; 98%Z] < 20)%nat
  /\ exists r,
      Collation_utf8mb4_uca_0900.WeightString ai_ci 20 nil_slice [97; 98]
        PadToMax = Some r
      /\ slice_ok r
      /\ cap nil_slice <= cap r
      /\ (PadToMax = PadToMax -> len r = cap r).
Proof.
  assert (H1 : forall s : iterator900,
             (length (fst (NextChunk s)) <= 16)%nat)
    by exact NextChunk900_length.
  assert (H2 : slice_ok nil_slice) by (vm_compute; discriminate).
  assert (H3 : (needed900 ai_ci [97%Z; 98%Z] < 20)%nat)
    by (vm_compute; lia).
  exact (conj H1 (conj H2 (conj H3
           (WeightString_900_full ai_ci 20 nil_slice [97; 98] PadToMax
              H1 H2 H3)))).
Defined.

Lemma WeightString_legacy_full_witness :
  slice_ok (mkSlice [1] 4)
  /\ (neededLegacy legacy_ci [97%Z; 98%Z] < 20)%nat
  /\ exists r,
      Collation_uca_legacy.WeightString legacy_ci 20 (mkSlice [1] 4)
        [97; 98] PadToMax = Some r
      /\ slice_ok r
      /\ cap (mkSlice [1] 4) <= cap r
      /\ (PadToMax = PadToMax -> 0 < PadToMax -> len r = cap r).
Proof.
  assert (H1 : slice_ok (mkSlice [1] 4)) by (vm_compute; discriminate).
  assert (H2 : (neededLegacy legacy_ci [97%Z; 98%Z] < 20)%nat)
    by (vm_compute; lia).
  exact (conj H1 (conj H2
           (WeightString_legacy_full legacy_ci 20 (mkSlice [1] 4) [97; 98]
              PadToMax H1 H2))).
Defined.

Lemma Collate_900_reflexive_witness :
  (remaining (Iterator (Collation_utf8mb4_uca_0900.uca as_cs) [97%Z; 98%Z])
   < 20)%nat
  /\ value (Collation_utf8mb4_uca_0900.Collate as_cs 20 [97; 98] [97; 98]
             true) = Some 0.
Proof.
  assert (H1 : (remaining
                  (Iterator (Collation_utf8mb4_uca_0900.uca as_cs)
                            [97%Z; 98%Z]) < 20)%nat)
    by (vm_compute; lia).
  exact (conj H1 (Collate_900_reflexive as_cs 20 [97; 98] true H1)).
Defined.

Lemma normalizecmp_Collate_antisymmetric_witness :
  (forall src,
      Level (Iterator (Collation_utf8mb4_uca_0900.uca as_cs) src) = 0)
  /\ (remaining (Iterator (Collation_utf8mb4_uca_0900.uca as_cs) [97%Z])
      < 20)%nat
  /\ exists x y,
      value (Collation_utf8mb4_uca_0900.Collate as_cs 20 [97] [65] false)
      = Some x
      /\ value (Collation_utf8mb4_uca_0900.Collate as_cs 20 [65] [97] false)
         = Some y
      /\ normalizecmp x = - normalizecmp y
      /\ (normalizecmp x = -1 \/ normalizecmp x = 0 \/ normalizecmp x = 1).
Proof.
  assert (H1 : forall src,
             Level (Iterator (Collation_utf8mb4_uca_0900.uca as_cs) src) = 0)
    by (intros src; reflexivity).
  assert (H2 : (remaining
                  (Iterator (Collation_utf8mb4_uca_0900.uca as_cs) [97%Z])
                < 20)%nat)
    by (vm_compute; lia).
  exact (conj H1 (conj H2
           (normalizecmp_Collate_antisymmetric as_cs 20 [97] [65] H1 H2))).
Defined.

Lemma Collate_legacy_reflexive_witness :
  (neededLegacy legacy_ci [97%Z; 98%Z] < 20)%nat
  /\ Collation_uca_legacy.Collate legacy_ci 20 [97; 98] [97; 98] false
     = Some 0.
Proof.
  assert (H1 : (neededLegacy legacy_ci [97%Z; 98%Z] < 20)%nat)
    by (vm_compute; lia).
  exact (conj H1 (Collate_legacy_reflexive legacy_ci 20 [97; 98] false H1)).
Defined.

Lemma Collate_legacy_antisymmetric_witness :
  (neededLegacy legacy_ci [97%Z] < 20)%nat
  /\ exists x,
      Collation_uca_legacy.Collate legacy_ci 20 [97] [98] false = Some x
      /\ Collation_uca_legacy.Collate legacy_ci 20 [98] [97] false
         = Some (- x).
Proof.
  assert (H1 : (neededLegacy legacy_ci [97%Z] < 20)%nat)
    by (vm_compute; lia).
  exact (conj H1 (Collate_legacy_antisymmetric legacy_ci 20 [97] [98] H1)).
Defined.

Lemma Collate_legacy_prefix_or_plain_witness :
  (neededLegacy legacy_ci [97%Z; 98%Z] < 20)%nat
  /\ exists x y,
      Collation_uca_legacy.Collate legacy_ci 20 [97; 98] [97] false = Some x
      /\ Collation_uca_legacy.Collate legacy_ci 20 [97; 98] [97] true = Some y
      /\ (y = x \/ y = 0) /\ (x = 0 -> y = 0).
Proof.
  assert (H1 : (neededLegacy legacy_ci [97%Z; 98%Z] < 20)%nat)
    by (vm_compute; lia).
  exact (conj H1
           (Collate_legacy_prefix_or_plain legacy_ci 20 [97; 98] [97] H1)).
Defined.

Lemma Collate_legacy_weights_witness :
  (forall s w s', NextLegacy s = (w, false, s') -> w = 0)
  /\ (neededLegacy legacy_ci [97%Z; 98%Z] < 20)%nat
  /\ (neededLegacy legacy_ci [97%Z] < 20)%nat
  /\ exists wa ita wb itb,
      weightsLegacy legacy_ci 20 [97; 98] = Some (wa, ita)
      /\ weightsLegacy legacy_ci 20 [97] = Some (wb, itb)
      /\ Collation_uca_legacy.Collate legacy_ci 20 [97; 98] [97] true =
         Some (weights_diff true wa wb).
Proof.
  assert (H1 : forall s w s', NextLegacy s = (w, false, s') -> w = 0)
    by exact NextLegacy_end.
  assert (H2 : (neededLegacy legacy_ci [97%Z; 98%Z] < 20)%nat)
    by (vm_compute; lia).
  assert (H3 : (neededLegacy legacy_ci [97%Z] < 20)%nat)
    by (vm_compute; lia).
  exact (conj H1 (conj H2 (conj H3
           (Collate_legacy_weights legacy_ci 20 [97; 98] [97] true
              H1 H2 H3)))).
Defined.

Lemma Collate_legacy_zero_iff_same_key_witness :
  let ita := {| codepoints := []; current := []; length_ := 2 |} in
  let itb := {| codepoints := []; current := []; length_ := 1 |} in
  (forall s w s', NextLegacy s = (w, false, s') -> w = 0)
  /\ weightsLegacy legacy_ci 20 [97; 98] = Some ([0x0E33; 0x0E4A], ita)
  /\ weightsLegacy legacy_ci 20 [97] = Some ([0x0E33], itb)
  /\ Forall (fun w => 0 < w < 65536) [0x0E33; 0x0E4A]
  /\ Forall (fun w => 0 < w < 65536) [0x0E33]
  /\ 0 <= 0
  /\ exists x ra rb,
      Collation_uca_legacy.Collate legacy_ci 20 [97; 98] [97] false = Some x
      /\ Collation_uca_legacy.WeightString legacy_ci 20 nil_slice [97; 98] 0
         = Some ra
      /\ Collation_uca_legacy.WeightString legacy_ci 20 nil_slice [97] 0
         = Some rb
      /\ (x = 0 <-> data ra = data rb).
Proof.
  intros ita itb.
  assert (H1 : forall s w s', NextLegacy s = (w, false, s') -> w = 0)
    by exact NextLegacy_end.
  assert (H2 : weightsLegacy legacy_ci 20 [97; 98]
               = Some ([0x0E33; 0x0E4A], ita)) by reflexivity.
  assert (H3 : weightsLegacy legacy_ci 20 [97] = Some ([0x0E33], itb))
    by reflexivity.
  assert (H4 : Forall (fun w => 0 < w < 65536) [0x0E33; 0x0E4A])
    by (repeat constructor; lia).
  assert (H5 : Forall (fun w => 0 < w < 65536) [0x0E33])
    by (repeat constructor; lia).
  assert (H6 : 0 <= 0) by lia.
  exact (conj H1 (conj H2 (conj H3 (conj H4 (conj H5 (conj H6
           (Collate_legacy_zero_iff_same_key legacy_ci 20 nil_slice
              [97; 98] [97] 0 _ _ ita itb H1 H2 H3 H4 H5 H6))))))).
Defined.

Lemma WeightString_without_count_witness :
  0 < PadToMax
  /\ 0 <= 0
  /\ (needed900 as_cs [97%Z] < 20)%nat
  /\ (neededLegacy legacy_ci [97%Z] < 20)%nat
  /\ (exists bs r,
        weightBytes900 as_cs 20 [97] = Some bs
        /\ Collation_utf8mb4_uca_0900.WeightString as_cs 20 nil_slice [97] 0
           = Some r
        /\ data r = data nil_slice ++ bs
        /\ (len nil_slice + Z.of_nat (length bs) <= cap nil_slice ->
            cap r = cap nil_slice))
  /\ (exists ws it r,
        weightsLegacy legacy_ci 20 [97] = Some (ws, it)
        /\ Collation_uca_legacy.WeightString legacy_ci 20 nil_slice [97] 0
           = Some r
        /\ data r = data nil_slice ++ weight_bytes ws
        /\ (len nil_slice + Z.of_nat (length (weight_bytes ws))
            <= cap nil_slice ->
            cap r = cap nil_slice)).
Proof.
  assert (H1 : 0 < PadToMax) by (vm_compute; reflexivity).
  assert (H2 : 0 <= 0) by lia.
  assert (H3 : (needed900 as_cs [97%Z] < 20)%nat) by (vm_compute; lia).
  assert (H4 : (neededLegacy legacy_ci [97%Z] < 20)%nat)
    by (vm_compute; lia).
  exact (conj H1 (conj H2 (conj H3 (conj H4
           (WeightString_without_count as_cs legacy_ci 20 nil_slice [97] 0
              H1 H2 H3 H4))))).
Defined.

Lemma WeightStringLen_monotone_witness :
  0 <= MaxCollationElementsPerCodepoint
  /\ 1 <= Collation_utf8mb4_uca_0900.levelsForCompare as_cs
  /\ (4 | 4) /\ (4 | 8) /\ 0 <= 4 <= 8
  /\ 2 * (8 / 4 * MaxCollationElementsPerCodepoint
          * Collation_utf8mb4_uca_0900.levelsForCompare as_cs)
     + 2 * (Collation_utf8mb4_uca_0900.levelsForCompare as_cs - 1) < 2 ^ 63
  /\ exists x y,
      Collation_utf8mb4_uca_0900.WeightStringLen as_cs 4 = Ok x
      /\ Collation_utf8mb4_uca_0900.WeightStringLen as_cs 8 = Ok y
      /\ 0 <= x <= y.
Proof.
  assert (H1 : 0 <= MaxCollationElementsPerCodepoint)
    by (vm_compute; discriminate).
  assert (H2 : 1 <= Collation_utf8mb4_uca_0900.levelsForCompare as_cs)
    by (vm_compute; discriminate).
  assert (H3 : (4 | 4)) by (exists 1; reflexivity).
  assert (H4 : (4 | 8)) by (exists 2; reflexivity).
  assert (H5 : 0 <= 4 <= 8) by lia.
  assert (H6 : 2 * (8 / 4 * MaxCollationElementsPerCodepoint
                    * Collation_utf8mb4_uca_0900.levelsForCompare as_cs)
               + 2 * (Collation_utf8mb4_uca_0900.levelsForCompare as_cs - 1)
               < 2 ^ 63) by (vm_compute; reflexivity).
  exact (conj H1 (conj H2 (conj H3 (conj H4 (conj H5 (conj H6
           (WeightStringLen_monotone as_cs 4 8 H1 H2 H3 H4 H5 H6))))))).
Defined.

Lemma init_900_once_witness :
  let NewCollation :=
    fun (_ : string) (_ : option unit) (_ _ _ : list unit) (_ : bool)
        (maxLevel : Z) => collation900 letters (Z.to_nat maxLevel) false in
  let c : Fields900.t unit unit unit unit iterator900 :=
    {| Fields900.name := "utf8mb4_0900_as_cs"%string;
       Fields900.id := 278;
       Fields900.weights := Some tt;
       Fields900.tailoring := [tt];
       Fields900.contractions := [];
       Fields900.reorder := [];
       Fields900.upperCaseFirst := false;
       Fields900.levelsForCompare := 3;
       Fields900.uca := None;
       Fields900.ucainit := false |} in
  let c1 := Fields900.init NewCollation c in
  let cn := Nat.iter 2 (Fields900.init NewCollation) c1 in
  Fields900.ucainit c = false
  /\ cn = c1
  /\ Fields900.uca cn =
     Some (NewCollation (Fields900.name c) (Fields900.weights c)
             (Fields900.tailoring c) (Fields900.reorder c)
             (Fields900.contractions c) (Fields900.upperCaseFirst c)
             (Fields900.levelsForCompare c))
  /\ Fields900.weights cn = None
  /\ Fields900.tailoring cn = []
  /\ Fields900.contractions cn = []
  /\ Fields900.reorder cn = []
  /\ Fields900.Name cn = Fields900.Name c
  /\ Fields900.ID cn = Fields900.ID c
  /\ option_map Collation_utf8mb4_uca_0900.levelsForCompare
       (Fields900.methods cn) = Some (Fields900.levelsForCompare c).
Proof.
  intros NewCollation c c1 cn.
  assert (H1 : Fields900.ucainit c = false) by reflexivity.
  exact (conj H1 (init_900_once _ _ _ _ _ NewCollation c 2 H1)).
Defined.

Lemma init_legacy_once_witness :
  let NewCollationLegacy :=
    fun (_ : unit) (_ : option unit) (_ _ : list unit) (_ : Z) =>
      collationLegacy legacy_letters 0x0209 in
  let c : FieldsLegacy.t unit unit unit unit iteratorLegacy :=
    {| FieldsLegacy.name := "utf8_unicode_ci"%string;
       FieldsLegacy.id := 192;
       FieldsLegacy.charset := tt;
       FieldsLegacy.weights := Some tt;
       FieldsLegacy.tailoring := [];
       FieldsLegacy.contractions := [tt];
       FieldsLegacy.maxCodepoint := 0xFFFF;
       FieldsLegacy.uca := None;
       FieldsLegacy.ucainit := false |} in
  let c1 := FieldsLegacy.init NewCollationLegacy c in
  let cn := Nat.iter 3 (FieldsLegacy.init NewCollationLegacy) c1 in
  FieldsLegacy.ucainit c = false
  /\ cn = c1
  /\ FieldsLegacy.uca cn =
     Some (NewCollationLegacy (FieldsLegacy.charset c)
             (FieldsLegacy.weights c) (FieldsLegacy.tailoring c)
             (FieldsLegacy.contractions c) (FieldsLegacy.maxCodepoint c))
  /\ FieldsLegacy.weights cn = None
  /\ FieldsLegacy.tailoring cn = []
  /\ FieldsLegacy.contractions cn = []
  /\ FieldsLegacy.Name cn = FieldsLegacy.Name c
  /\ FieldsLegacy.ID cn = FieldsLegacy.ID c.
Proof.
  intros NewCollationLegacy c c1 cn.
  assert (H1 : FieldsLegacy.ucainit c = false) by reflexivity.
  exact (conj H1 (init_legacy_once _ _ _ _ _ NewCollationLegacy c 3 H1)).
Defined.

Lemma Collate_900_level_end_witness :
  let one := {| levels := [[]]; level := 0; fast := true |} in
  let one1 := {| levels := []; level := 1; fast := true |} in
  let a3 := {| levels := [[]; [0x20]; [0x02]]; level := 0; fast := false |} in
  let A3 := {| levels := [[]; [0x20]; [0x08]]; level := 0; fast := false |} in
  let a3' := {| levels := [[0x20]; [0x02]]; level := 1; fast := false |} in
  let A3' := {| levels := [[0x20]; [0x08]]; level := 1; fast := false |} in
  lockstep_at 0 1
    (Iterator (Collation_utf8mb4_uca_0900.uca ai_ci) [97])
    (Iterator (Collation_utf8mb4_uca_0900.uca ai_ci) [65]) one one
  /\ Next one = (0, false, one1)
  /\ Level one1 = Level one1
  /\ Collation_utf8mb4_uca_0900.Collate_from ai_ci (1 + 19) 0
       (Iterator (Collation_utf8mb4_uca_0900.uca ai_ci) [97])
       (Iterator (Collation_utf8mb4_uca_0900.uca ai_ci) [65]) false
     = Some (0, one1, one1)
  /\ lockstep_at 0 1
       (Iterator (Collation_utf8mb4_uca_0900.uca as_cs) [97])
       (Iterator (Collation_utf8mb4_uca_0900.uca as_cs) [65]) a3 A3
  /\ Next a3 = (0, true, a3')
  /\ Next A3 = (0, true, A3')
  /\ Level a3' = Level A3'
  /\ Collation_utf8mb4_uca_0900.Collate_from as_cs (1 + 19) 0
       (Iterator (Collation_utf8mb4_uca_0900.uca as_cs) [97])
       (Iterator (Collation_utf8mb4_uca_0900.uca as_cs) [65]) false
     = Collation_utf8mb4_uca_0900.Collate_from as_cs 18 (0 + 1) a3' A3' false.
Proof.
  intros one one1 a3 A3 a3' A3'.
  assert (H1 : lockstep_at 0 1
                 (Iterator (Collation_utf8mb4_uca_0900.uca ai_ci) [97])
                 (Iterator (Collation_utf8mb4_uca_0900.uca ai_ci) [65])
                 one one).
  { eapply lockstep_at_S;
      [reflexivity | reflexivity | reflexivity | reflexivity
       | apply lockstep_at_O]. }
  assert (H2 : Next one = (0, false, one1)) by reflexivity.
  assert (H3 : Level one1 = Level one1) by reflexivity.
  assert (H4 : false = false \/ Level one1 <> 0) by (left; reflexivity).
  assert (H5 : lockstep_at 0 1
                 (Iterator (Collation_utf8mb4_uca_0900.uca as_cs) [97])
                 (Iterator (Collation_utf8mb4_uca_0900.uca as_cs) [65])
                 a3 A3).
  { eapply lockstep_at_S;
      [reflexivity | reflexivity | reflexivity | reflexivity
       | apply lockstep_at_O]. }
  assert (H6 : Next a3 = (0, true, a3')) by reflexivity.
  assert (H7 : Next A3 = (0, true, A3')) by reflexivity.
  assert (H8 : Level a3' = Level A3') by reflexivity.
  assert (H9 : true = false \/ Level a3' <> 0)
    by (right; simpl; discriminate).
  assert (H10 : 0 + 1 < Collation_utf8mb4_uca_0900.levelsForCompare as_cs)
    by (simpl; lia).
  exact (conj H1 (conj H2 (conj H3 (conj
           (proj1 (Collate_900_level_end ai_ci 18 1 0 _ _ one one 0 false
                     one1 one1 false H1 H2 H2 H3 H4)
                  (or_introl eq_refl))
           (conj H5 (conj H6 (conj H7 (conj H8
              (proj2 (Collate_900_level_end as_cs 18 1 0 _ _ a3 A3 0 true
                        a3' A3' false H5 H6 H7 H8 H9)
                     eq_refl H10))))))))).
Defined.

Lemma Collate_legacy_transitive_witness :
  let it1 := {| codepoints := []; current := []; length_ := 1 |} in
  let it2 := {| codepoints := []; current := []; length_ := 2 |} in
  (forall s w s', NextLegacy s = (w, false, s') -> w = 0)
  /\ weightsLegacy legacy_ci 20 [97] = Some ([0x0E33], it1)
  /\ weightsLegacy legacy_ci 20 [97; 98] = Some ([0x0E33; 0x0E4A], it2)
  /\ weightsLegacy legacy_ci 20 [98] = Some ([0x0E4A], it1)
  /\ Forall (fun w => 0 < w) [0x0E33]
  /\ Forall (fun w => 0 < w) [0x0E33; 0x0E4A]
  /\ Forall (fun w => 0 < w) [0x0E4A]
  /\ Collation_uca_legacy.Collate legacy_ci 20 [97] [97; 98] false
     = Some (- 0x0E4A)
  /\ - 0x0E4A <= 0
  /\ Collation_uca_legacy.Collate legacy_ci 20 [97; 98] [98] false
     = Some (0x0E33 - 0x0E4A)
  /\ 0x0E33 - 0x0E4A <= 0
  /\ exists z,
      Collation_uca_legacy.Collate legacy_ci 20 [97] [98] false = Some z
      /\ z <= 0.
Proof.
  intros it1 it2.
  assert (H1 : forall s w s', NextLegacy s = (w, false, s') -> w = 0)
    by exact NextLegacy_end.
  assert (H2 : weightsLegacy legacy_ci 20 [97] = Some ([0x0E33], it1))
    by reflexivity.
  assert (H3 : weightsLegacy legacy_ci 20 [97; 98]
               = Some ([0x0E33; 0x0E4A], it2)) by reflexivity.
  assert (H4 : weightsLegacy legacy_ci 20 [98] = Some ([0x0E4A], it1))
    by reflexivity.
  assert (H5 : Forall (fun w => 0 < w) [0x0E33])
    by (repeat constructor; lia).
  assert (H6 : Forall (fun w => 0 < w) [0x0E33; 0x0E4A])
    by (repeat constructor; lia).
  assert (H7 : Forall (fun w => 0 < w) [0x0E4A])
    by (repeat constructor; lia).
  assert (H8 : Collation_uca_legacy.Collate legacy_ci 20 [97] [97; 98] false
               = Some (- 0x0E4A)) by reflexivity.
  assert (H9 : - 0x0E4A <= 0) by lia.
  assert (H10 : Collation_uca_legacy.Collate legacy_ci 20 [97; 98] [98] false
                = Some (0x0E33 - 0x0E4A)) by reflexivity.
  assert (H11 : 0x0E33 - 0x0E4A <= 0) by lia.
  exact (conj H1 (conj H2 (conj H3 (conj H4 (conj H5 (conj H6 (conj H7
          (conj H8 (conj H9 (conj H10 (conj H11
            (Collate_legacy_transitive legacy_ci 20 [97] [97; 98] [98]
               _ _ _ it1 it2 it1 _ _
               H1 H2 H3 H4 H5 H6 H7 H8 H9 H10 H11)))))))))))).
Defined.

End MoreExamples.
